(** * Shallow embedding of parts of the skxray / nsls2 analysis toolkit

    Modelled functions:
    - [skxray/dpc.py]        : [image_reduction]
    - [skxray/core/xsvs.py]  : [_process], [normalize_bin_edges]
    - [skxray/io/output.py]  : [save_output], [save_gsas], [_valid_inputs]
    - [nsls2/spectroscopy.py]: [integrate_ROI], [align_and_scale]

    Python exceptions are an inductive [py_exc]; a call either returns or
    raises.  Mutation of caller-owned arrays and of the file system is made
    explicit by state passing: a function returns the caller's objects as
    they are after the call.  Python floats are modelled as [Q] (exact
    rationals) where arithmetic is needed, and as an abstract type where
    only printing and parsing matter. *)

From Stdlib Require Import ZArith QArith Qminmax List String Ascii Bool Lia.
From Stdlib Require Import DecimalString DecimalNat Sorted Lqa.
Import ListNotations.
Open Scope Z_scope.

(** ** Common Python runtime notions *)

Inductive py_exc : Type :=
| ValueError
| IndexError
| OverflowError
| IOError.

Inductive outcome (A : Type) : Type :=
| Ret (a : A)
| Raise (e : py_exc).
Arguments Ret {A} a.
Arguments Raise {A} e.

Definition is_raise {A} (o : outcome A) : bool :=
  match o with Raise _ => true | Ret _ => false end.

(** Python's normalisation of an integer index [i] into a sequence of
    List.length [n]: negative indices count from the end; anything outside
    [-n, n) is an [IndexError]. *)
Definition norm_index (n : nat) (i : Z) : option nat :=
  if (- Z.of_nat n <=? i) && (i <? Z.of_nat n)
  then Some (Z.to_nat (if i <? 0 then i + Z.of_nat n else i))
  else None.

(** Python's normalisation of a slice bound: negative bounds count from
    the end, then everything is clamped to [0, n]. *)
Definition norm_slice_bound (n : nat) (b : Z) : nat :=
  if b <? 0 then Z.to_nat (Z.max 0 (b + Z.of_nat n))
  else Z.to_nat (Z.min b (Z.of_nat n)).

(** [l[start:stop]] with integer bounds: never raises. *)
Definition py_slice {A} (l : list A) (start stop : Z) : list A :=
  let s := norm_slice_bound (List.length l) start in
  let e := norm_slice_bound (List.length l) stop in
  firstn (e - s) (skipn s l).

(** Item assignment at a valid (already normalised) position. *)
Fixpoint list_set {A} (l : list A) (n : nat) (v : A) : list A :=
  match l, n with
  | [], _ => []
  | _ :: t, O => v :: t
  | h :: t, S n' => h :: list_set t n' v
  end.

(** ** [skxray/dpc.py] : [image_reduction] *)
Module Dpc.

(** A 2-D numpy array of integers: its column count and its rows. *)
Record ndarray2 := mk_ndarray2 { ncols : nat; rows : list (list Z) }.

Definition nrows (im : ndarray2) : nat := List.length (rows im).

Definition well_formed (im : ndarray2) : Prop :=
  Forall (fun r => List.length r = ncols im) (rows im).

Definition pixel (im : ndarray2) (r c : nat) : option Z :=
  match nth_error (rows im) r with
  | Some row => nth_error row c
  | None => None
  end.

(** [im[x, y] = 0]: both indices are checked before anything is written. *)
Definition setitem_zero (im : ndarray2) (x y : Z) : outcome ndarray2 :=
  match norm_index (nrows im) x, norm_index (ncols im) y with
  | Some r, Some c =>
      match nth_error (rows im) r with
      | Some row => Ret (mk_ndarray2 (ncols im) (list_set (rows im) r (list_set row c 0)))
      | None => Ret im
      end
  | _, _ => Raise IndexError
  end.

(** [im[x1:x2, y1:y2]]: a view; slicing with integers never raises. *)
Definition slice2 (im : ndarray2) (x1 y1 x2 y2 : Z) : ndarray2 :=
  let c0 := norm_slice_bound (ncols im) y1 in
  let c1 := norm_slice_bound (ncols im) y2 in
  mk_ndarray2 (c1 - c0) (map (fun row => py_slice row y1 y2) (py_slice (rows im) x1 x2)).

Fixpoint vec_add (a b : list Z) : list Z :=
  match a, b with
  | x :: a', y :: b' => (x + y) :: vec_add a' b'
  | _, _ => []
  end.

(** [np.sum(im, axis=0)] and [np.sum(im, axis=1)]. *)
Definition sum_axis0 (im : ndarray2) : list Z :=
  fold_left vec_add (rows im) (repeat 0 (ncols im)).

Definition sum_axis1 (im : ndarray2) : list Z :=
  map (fun row => fold_left Z.add row 0) (rows im).

Definition msg_bad_pixel : string := "Bad pixel indexes are out of range.".

(** The bad-pixel loop: writes into the caller's array; an [IndexError]
    is caught, a message printed, and the loop goes on. *)
Fixpoint zero_bad_pixels (im : ndarray2) (bad : list (Z * Z))
  : ndarray2 * list string :=
  match bad with
  | [] => (im, [])
  | (x, y) :: rest =>
      match setitem_zero im x y with
      | Ret im' => zero_bad_pixels im' rest
      | Raise _ =>
          let '(im'', out) := zero_bad_pixels im rest in
          (im'', msg_bad_pixel :: out)
      end
  end.

(** Result of a call: the caller's [im] object after the call, the printed
    lines, and the returned [(xline, yline)]. *)
Record call_result := mk_call_result {
  caller_im : ndarray2;
  stdout : list string;
  xline : list Z;
  yline : list Z
}.

Definition image_reduction (im : ndarray2) (roi : option (Z * Z * Z * Z))
    (bad_pixels : option (list (Z * Z))) : outcome call_result :=
  let '(im1, out) :=
    match bad_pixels with
    | Some bp => zero_bad_pixels im bp
    | None => (im, [])
    end in
  (* the ROI rebinds the local name only; the caller's object is [im1] *)
  let local :=
    match roi with
    | Some (x1, y1, x2, y2) => slice2 im1 x1 y1 x2 y2
    | None => im1
    end in
  Ret (mk_call_result im1 out (sum_axis0 local) (sum_axis1 local)).

End Dpc.
(** ** [skxray/core/xsvs.py] : [_process] *)
Module Xsvs.

Local Open Scope Q_scope.

(** An element of a numpy object array: the scalar [0] it is created with,
    or the 1-D float array later stored into it. *)
Inductive pyobj : Type :=
| Scalar (q : Q)
| Arr (a : list Q).

(** A binary numpy operation on 1-D operands, with broadcasting of scalars
    and of length-1 arrays; other shape mismatches raise [ValueError]. *)
Definition obj_binop (f : Q -> Q -> Q) (a b : pyobj) : outcome pyobj :=
  match a, b with
  | Scalar x, Scalar y => Ret (Scalar (f x y))
  | Scalar x, Arr v => Ret (Arr (map (f x) v))
  | Arr u, Scalar y => Ret (Arr (map (fun x => f x y) u))
  | Arr u, Arr v =>
      if Nat.eqb (List.length u) (List.length v)
      then Ret (Arr (map (fun '(x, y) => f x y) (combine u v)))
      else match u, v with
           | [x], _ => Ret (Arr (map (f x) v))
           | _, [y] => Ret (Arr (map (fun x => f x y) u))
           | _, _ => Raise ValueError
           end
  end.

(** Read [a[i, j]] of a 2-D object array. *)
Definition get2 {A} (a : list (list A)) (i j : Z) : outcome A :=
  match norm_index (List.length a) i with
  | Some r =>
      match nth_error a r with
      | Some row =>
          match norm_index (List.length row) j with
          | Some c => match nth_error row c with Some v => Ret v | None => Raise IndexError end
          | None => Raise IndexError
          end
      | None => Raise IndexError
      end
  | None => Raise IndexError
  end.

(** Write [a[i, j] = v]; the indices were already checked by the read of
    the augmented assignment. *)
Definition set2 {A} (a : list (list A)) (i j : Z) (v : A) : list (list A) :=
  match norm_index (List.length a) i with
  | Some r =>
      match nth_error a r with
      | Some row =>
          match norm_index (List.length row) j with
          | Some c => list_set a r (list_set row c v)
          | None => a
          end
      | None => a
      end
  | None => a
  end.

(** [arr[labels == k]] on a 1-D float array. *)
Definition mask_select (data : pyobj) (labels : list Z) (k : Z) : outcome (list Q) :=
  match data with
  | Scalar _ => Raise IndexError
  | Arr v =>
      if Nat.eqb (List.length v) (List.length labels)
      then Ret (map fst (filter (fun '(_, l) => Z.eqb l k) (combine v labels)))
      else Raise IndexError
  end.

(** The caller-owned objects [_process] receives.  [buf] and [labels] are
    read only; [img_per_level], [prob_k] and [prob_k_pow] are updated in
    place, as the docstring says. *)
Record xsvs_args := mk_xsvs_args {
  img_per_level : list Z;
  buf : list (list pyobj);
  labels : list Z;
  bin_edges : list Q;
  prob_k : list (list pyobj);
  prob_k_pow : list (list pyobj)
}.

Section Process.

(** [np.nan_to_num(np.histogram(data, bins=edges, normed=True)[0])]:
    numpy library code, taken as a parameter of the development. *)
Variable np_histogram_density : list Q -> list Q -> outcome (list Q).

Variables (level buf_no : Z).

Definition with_img_per_level (st : xsvs_args) (v : list Z) : xsvs_args :=
  mk_xsvs_args v (buf st) (labels st) (bin_edges st) (prob_k st) (prob_k_pow st).
Definition with_prob_k (st : xsvs_args) (v : list (list pyobj)) : xsvs_args :=
  mk_xsvs_args (img_per_level st) (buf st) (labels st) (bin_edges st) v (prob_k_pow st).
Definition with_prob_k_pow (st : xsvs_args) (v : list (list pyobj)) : xsvs_args :=
  mk_xsvs_args (img_per_level st) (buf st) (labels st) (bin_edges st) (prob_k st) v.

(** [img_per_level[level] += 1] *)
Definition incr_level (st : xsvs_args) : outcome xsvs_args :=
  match norm_index (List.length (img_per_level st)) level with
  | Some r =>
      match nth_error (img_per_level st) r with
      | Some n => Ret (with_img_per_level st (list_set (img_per_level st) r (n + 1)%Z))
      | None => Raise IndexError
      end
  | None => Raise IndexError
  end.

(** [p[level, j] += (f(spe_hist) - p[level, j]) / img_per_level[level]] *)
Definition running_mean (p : pyobj) (h : list Q) (n : Z) : outcome pyobj :=
  match obj_binop Qminus (Arr h) p with
  | Ret d =>
      match obj_binop Qdiv d (Scalar (inject_Z n)) with
      | Ret d' => obj_binop Qplus p d'
      | Raise e => Raise e
      end
  | Raise e => Raise e
  end.

(** One iteration [j] of the ROI loop.  On an exception the state reached
    so far is kept: Python has already performed the earlier writes. *)
Definition process_roi (j : nat) (st : xsvs_args) : outcome unit * xsvs_args :=
  match get2 (buf st) level buf_no with
  | Raise e => (Raise e, st)
  | Ret data =>
  match mask_select data (labels st) (Z.of_nat j + 1) with
  | Raise e => (Raise e, st)
  | Ret roi_data =>
  match np_histogram_density roi_data (bin_edges st) with
  | Raise e => (Raise e, st)
  | Ret spe_hist =>
  match get2 (prob_k st) level (Z.of_nat j) with
  | Raise e => (Raise e, st)
  | Ret pk =>
  let n := match norm_index (List.length (img_per_level st)) level with
           | Some r => nth r (img_per_level st) 0%Z
           | None => 0%Z
           end in
  match running_mean pk spe_hist n with
  | Raise e => (Raise e, st)
  | Ret pk' =>
  let st1 := with_prob_k st (set2 (prob_k st) level (Z.of_nat j) pk') in
  match get2 (prob_k_pow st1) level (Z.of_nat j) with
  | Raise e => (Raise e, st1)
  | Ret pp =>
  match running_mean pp (map (fun x => x * x) spe_hist) n with
  | Raise e => (Raise e, st1)
  | Ret pp' =>
      (Ret tt, with_prob_k_pow st1 (set2 (prob_k_pow st1) level (Z.of_nat j) pp'))
  end end end end end end end.

Fixpoint roi_loop (js : list nat) (st : xsvs_args) : outcome unit * xsvs_args :=
  match js with
  | [] => (Ret tt, st)
  | j :: js' =>
      match process_roi j st with
      | (Ret _, st') => roi_loop js' st'
      | (Raise e, st') => (Raise e, st')
      end
  end.

(** [_process(num_roi, level, buf_no, buf, img_per_level, labels, max_cts,
    bin_edges, prob_k, prob_k_pow)]; returns [None] and the caller's
    objects after the call.  [max_cts] is unused by the source. *)
Definition _process (num_roi : nat) (st : xsvs_args) : outcome unit * xsvs_args :=
  match incr_level st with
  | Raise e => (Raise e, st)
  | Ret st1 => roi_loop (seq 0 num_roi) st1
  end.

End Process.

End Xsvs.
(** ** String helpers (Python [str] operations) *)
Module PyStr.
Local Open Scope string_scope.

Definition nl : string := String "010"%char EmptyString.
Definition crlf : string := String "013"%char nl.

Definition is_nl (c : ascii) : bool := Ascii.eqb c "010"%char.
Definition is_hash (c : ascii) : bool := Ascii.eqb c "#"%char.
(** The characters [str.split()] splits on. *)
Definition is_ws (c : ascii) : bool :=
  Ascii.eqb c " "%char || Ascii.eqb c "009"%char || Ascii.eqb c "010"%char ||
  Ascii.eqb c "011"%char || Ascii.eqb c "012"%char || Ascii.eqb c "013"%char.

Fixpoint str_forall (f : ascii -> bool) (s : string) : bool :=
  match s with
  | EmptyString => true
  | String c s' => f c && str_forall f s'
  end.

(** [s.split(sep)] for a one-character separator class: keeps empty
    fields. *)
Fixpoint split_on (p : ascii -> bool) (s : string) : list string :=
  match s with
  | EmptyString => [EmptyString]
  | String c s' =>
      if p c then EmptyString :: split_on p s'
      else match split_on p s' with
           | w :: ws => String c w :: ws
           | [] => [String c EmptyString]
           end
  end.

(** [s.split()]: whitespace-separated fields, empty ones dropped. *)
Definition py_split (s : string) : list string :=
  filter (fun w => negb (String.eqb w EmptyString)) (split_on is_ws s).

(** Text before the first ['#'] (numpy's comment stripping). *)
Fixpoint before_hash (s : string) : string :=
  match s with
  | EmptyString => EmptyString
  | String c s' => if is_hash c then EmptyString else String c (before_hash s')
  end.

(** [str(n)] for a non-negative Python int. *)
Definition py_str_nat (n : nat) : string := NilEmpty.string_of_uint (Nat.to_uint n).

Definition last_char (s : string) : option ascii :=
  match String.get (String.length s - 1) s with
  | Some c => if (0 <? String.length s)%nat then Some c else None
  | None => None
  end.

(** [os.path.join(a, b)] for two components. *)
Definition os_path_join (a b : string) : string :=
  match b with
  | String "/" _ => b
  | _ => if String.eqb a EmptyString then b
         else match last_char a with
              | Some "/"%char => a ++ b
              | _ => a ++ "/" ++ b
              end
  end.

(** [os.path.dirname(p)]: the text up to the last slash, with trailing
    slashes removed unless it consists of slashes only. *)
Definition os_path_dirname (p : string) : string :=
  let r := rev (list_ascii_of_string p) in
  let head_r := (fix drop (l : list ascii) : list ascii :=
                   match l with
                   | [] => []
                   | c :: l' => if Ascii.eqb c "/"%char then l else drop l'
                   end) r in
  let stripped := (fix strip (l : list ascii) : list ascii :=
                     match l with
                     | c :: l' => if Ascii.eqb c "/"%char then strip l' else l
                     | [] => []
                     end) head_r in
  match stripped with
  | [] => string_of_list_ascii (rev head_r)
  | _ => string_of_list_ascii (rev stripped)
  end.

(** ["%-80s" % s] *)
Definition ljust80 (s : string) : string :=
  s ++ string_of_list_ascii (repeat " "%char (80 - String.length s)).

End PyStr.

(** ** [skxray/io/output.py] *)
Module Output.
Import PyStr.
Local Open Scope string_scope.

(** The part of the file system the writers touch: existing directories
    and files with their contents. *)
Record filesystem := mk_fs { fs_dirs : list string; fs_files : list (string * string) }.

Definition is_dir (fs : filesystem) (p : string) : bool := existsb (String.eqb p) (fs_dirs fs).
Definition is_file (fs : filesystem) (p : string) : bool :=
  existsb (fun '(q, _) => String.eqb p q) (fs_files fs).
(** [os.path.exists] *)
Definition path_exists (fs : filesystem) (p : string) : bool := is_dir fs p || is_file fs p.
Definition read_file (fs : filesystem) (p : string) : option string :=
  option_map snd (find (fun '(q, _) => String.eqb p q) (fs_files fs)).
Definition write_file (fs : filesystem) (p : string) (content : string) : filesystem :=
  mk_fs (fs_dirs fs) ((p, content) :: filter (fun '(q, _) => negb (String.eqb p q)) (fs_files fs)).

(** [open(p, 'wb')] succeeds when [p] is not a directory and its parent
    directory exists ([""] is the working directory). *)
Definition open_check (fs : filesystem) (p : string) : outcome unit :=
  if is_dir fs p then Raise IOError
  else let d := os_path_dirname p in
       if String.eqb d EmptyString || is_dir fs d then Ret tt else Raise IOError.

(** [_valid_inputs(tth, intensity, output_name, ext, err, dir_path)]; only
    the lengths of the arrays and whether [err] is [None] matter. *)
Definition _valid_inputs (fs : filesystem) (len_tth len_intensity : nat)
    (output_name ext : string) (err_given : bool) (dir_path : option string)
    : outcome string :=
  if negb (Nat.eqb len_tth len_intensity) then Raise ValueError
  else if String.eqb ext ".xye" && negb err_given then Raise ValueError
  else match dir_path with
       | None => Ret (output_name ++ ext)
       | Some d => if path_exists fs d then Ret (os_path_join d output_name ++ ext)
                   else Raise ValueError
       end.

Definition des_Q : string :=
  "First column represents Q values (Angstroms) and second column represents intensities and if there is a third column it represents the error value of intensities".
Definition des_2theta : string :=
  "First column represents two theta values (degrees) and  second column represents intensities and if there is a third column it represents the error value of intensities".
Definition hashes : string := "#####################################################".

(** The writes of [save_output] before [np.savetxt], followed by [body]. *)
Definition output_text (output_name : string) (n : nat) (des body : string) : string :=
  output_name ++ nl ++ " This file contains integrated powder x-ray diffraction intensities." ++
  nl ++ nl ++ "Number of data points in the file " ++ py_str_nat n ++ " " ++ nl ++
  des ++ hashes ++ nl ++ nl ++ body.

Section Floats.

(** Python floats, and numpy's ['%.18e'] conversion (the default [fmt] of
    [np.savetxt]) and [float(...)] parsing (used by [np.loadtxt]). *)
Variable float : Type.
Variable fmt_e : float -> string.
Variable parse_float : string -> option float.

(** [np.c_[tth, intensity]] or [np.c_[tth, intensity, err]] as rows;
    columns of different lengths raise [ValueError]. *)
Definition c_rows (tth intensity : list float) (err : option (list float))
    : outcome (list (list float)) :=
  if negb (Nat.eqb (List.length tth) (List.length intensity)) then Raise ValueError
  else match err with
       | None => Ret (map (fun '(a, b) => [a; b]) (combine tth intensity))
       | Some e =>
           if negb (Nat.eqb (List.length e) (List.length tth)) then Raise ValueError
           else Ret (map (fun '(a, b, c) => [a; b; c]) (combine (combine tth intensity) e))
       end.

(** [np.savetxt(f, rows, newline='\n')]: fields joined by one space. *)
Definition savetxt (rows : list (list float)) : string :=
  String.concat "" (map (fun row => String.concat " " (map fmt_e row) ++ nl) rows).

(** [save_output(tth, intensity, output_name, q_or_2theta, ext, err,
    dir_path)]: the outcome and the file system after the call.  A failure
    of [np.c_] happens inside the [with] block, after the header was
    written. *)
Definition save_output (fs : filesystem) (tth intensity : list float)
    (output_name q_or_2theta ext : string) (err : option (list float))
    (dir_path : option string) : outcome unit * filesystem :=
  if negb (String.eqb q_or_2theta "Q" || String.eqb q_or_2theta "2theta")
  then (Raise ValueError, fs)
  else
  let des := if String.eqb q_or_2theta "Q" then des_Q else des_2theta in
  match _valid_inputs fs (List.length tth) (List.length intensity) output_name ext
          (match err with Some _ => true | None => false end) dir_path with
  | Raise e => (Raise e, fs)
  | Ret file_path =>
  match open_check fs file_path with
  | Raise e => (Raise e, fs)
  | Ret _ =>
  match c_rows tth intensity err with
  | Raise e => (Raise e, write_file fs file_path (output_text output_name (List.length tth) des ""))
  | Ret rows =>
      (Ret tt, write_file fs file_path
                 (output_text output_name (List.length tth) des (savetxt rows)))
  end end end.

(** [np.loadtxt(file, skiprows=k)] as a list of rows: the first [k] lines
    are skipped, comments after ['#'] are dropped, blank lines ignored, and
    each remaining line is split on whitespace and parsed.  [None] stands
    for the [ValueError] of an unparsable field. *)
(** [float(w)] for each field of a row. *)
Definition parse_row (l : list string) : option (list float) :=
  fold_right (fun w r => match parse_float w, r with
                         | Some v, Some r' => Some (v :: r')
                         | _, _ => None
                         end) (Some []) l.

Definition loadtxt (skiprows : nat) (content : string) : option (list (list float)) :=
  let lines := skipn skiprows (split_on is_nl content) in
  let fields := filter (fun l => negb (Nat.eqb (List.length l) 0))
                       (map (fun l => py_split (before_hash l)) lines) in
  fold_right (fun l acc =>
                match acc, parse_row l with
                | Some acc', Some row => Some (row :: acc')
                | _, _ => None
                end) (Some []) fields.

(** Column [k] of the parsed table ([data[:, k]]). *)
Definition column (k : nat) (data : list (list float)) : list float :=
  flat_map (fun row => match nth_error row k with Some v => [v] | None => [] end) data.

End Floats.

End Output.

(** ** [skxray/io/output.py] : [save_gsas] *)
Module Gsas.
Import PyStr Output.
Local Open Scope Q_scope.
Local Open Scope string_scope.

(** [np.max] of a float array; an empty array raises [ValueError]. *)
Definition np_max (l : list Q) : outcome Q :=
  match l with
  | [] => Raise ValueError
  | x :: t => Ret (fold_left Qmax t x)
  end.

Fixpoint chunks_aux {A} (fuel n : nat) (l : list A) : list (list A) :=
  match fuel with
  | O => []
  | S f => match l with
           | [] => []
           | _ => firstn n l :: chunks_aux f n (skipn n l)
           end
  end.

(** [[l[i:i + n] for i in range(0, len(l), n)]] *)
Definition chunks {A} (n : nat) (l : list A) : list (list A) := chunks_aux (List.length l) n l.

Fixpoint combine3 {A B C} (a : list A) (b : list B) (c : list C) : list (A * B * C) :=
  match a, b, c with
  | x :: a', y :: b', z :: c' => (x, y, z) :: combine3 a' b' c'
  | _, _, _ => []
  end.

Definition set_last (f : string -> string) (l : list string) : list string :=
  match rev l with
  | [] => []
  | x :: r => rev (f x :: r)
  end.


Section Printf.

(** The printf conversions of one number (["%6.0f"], ["%g"], ["%5i"],
    ...), Python's string formatting, taken as parameters. *)
Variable fmt_num : string -> Q -> string.
Variable fmt_int : string -> Z -> string.

(** [np.floor(np.log10(999999 / m))] for a positive float maximum [m]:
    numpy's float division, logarithm and rounding (library code), taken as
    a parameter.  When the quotient overflows to [inf] the floor is [inf]
    and [min(inf, 0)] is [0], which any non-negative value stands for. *)
Variable floor_log10_ratio : Q -> Z.

(** [log_scale = np.floor(np.log10(999999 / np.max(intensity)))],
    [log_scale = min(log_scale, 0)], [scale = 10 ** int(log_scale)], for a
    maximum [m] of an array of finite floats:
    - [m = 0]: the quotient is [inf], the minimum is [0], [scale = 1];
    - [m < 0]: [log10] of a negative number is [nan], [min(nan, 0)] is
      [nan] and [int(nan)] raises [ValueError];
    - [m > 0]: [scale = 10 ** min(k, 0)] with [k = floor_log10_ratio m].
    Floats are finite here: an infinite maximum makes [log_scale] [-inf]
    and [int(log_scale)] raise [OverflowError], a [nan] one raises
    [ValueError]; a zero maximum is [+0.0] ([-0.0] gives [-inf], then
    [nan], then [ValueError]).  The float [10 ** -j] is taken as the
    rational [10^-j]. *)
Definition gsas_scale (m : Q) : outcome Q :=
  if Qeq_bool m 0 then Ret 1
  else if negb (Qle_bool 0 m) then Raise ValueError
  else Ret (/ inject_Z (10 ^ (- Z.min (floor_log10_ratio m) 0))).

Definition bank_line (kind : string) (n_chan n_rec : nat) (tth0_cdg dtth_cdg : Q) : string :=
  "BANK " ++ fmt_int "%5i" 1 ++ " " ++ fmt_int "%8i" (Z.of_nat n_chan) ++ " " ++
  fmt_int "%8i" (Z.of_nat n_rec) ++ " CONST " ++ fmt_num "%9.5f" tth0_cdg ++ " " ++
  fmt_num "%9.5f" dtth_cdg ++ " " ++ fmt_num "%9.5f" 0 ++ " " ++ fmt_num "%9.5f" 0 ++
  " " ++ kind.

(** The lines after the title, for the (possibly overridden) mode. *)
Definition mode_lines (mode : option string) (tth intensity : list Q) (err : list Q)
    (scale tth0_cdg dtth_cdg : Q) : outcome (list string) :=
  let n_chan := List.length intensity in
  let m := match mode with Some m => m | None => "" end in
  let is_mode k := match mode with Some _ => String.eqb m k | None => false end in
  if is_mode "std" then
      let lrecs := map (fun ii => fmt_int "%2i" 1 ++ fmt_num "%6.0f" (ii * scale)) intensity in
      Ret (ljust80 (bank_line "STD" n_chan ((n_chan + 9) / 10) tth0_cdg dtth_cdg)
           :: map (String.concat "") (chunks 10 lrecs))
  else if is_mode "esd" then
      let lrecs := map (fun '(ii, ee) => fmt_num "%8.0f" ii ++ fmt_num "%8.0f" (ee * scale))
                       (combine intensity err) in
      Ret (ljust80 (bank_line "ESD" n_chan ((n_chan + 4) / 5) tth0_cdg dtth_cdg)
           :: map (String.concat "") (chunks 5 lrecs))
  else if is_mode "fxye" then
      let lrecs := map (fun '(xx, yy, ee) =>
                          fmt_num "%22.10f" (xx * scale) ++ fmt_num "%22.10f" (yy * scale) ++
                          fmt_num "%24.10f" (ee * scale))
                       (combine3 tth intensity err) in
      Ret (ljust80 (bank_line "FXYE" n_chan n_chan tth0_cdg dtth_cdg) :: map ljust80 lrecs)
  else Raise ValueError.

(** [save_gsas(tth, intensity, output_name, ext, mode, err, dir_path)]:
    the outcome and the file system after the call. *)
Definition save_gsas (fs : filesystem) (tth intensity : list Q) (output_name ext : string)
    (mode : option string) (err : option (list Q)) (dir_path : option string)
    : outcome unit * filesystem :=
  match _valid_inputs fs (List.length tth) (List.length intensity) output_name ext
          (match err with Some _ => true | None => false end) dir_path with
  | Raise e => (Raise e, fs)
  | Ret file_path =>
  match np_max intensity with
  | Raise e => (Raise e, fs)
  | Ret m =>
  match gsas_scale m with
  | Raise e => (Raise e, fs)
  | Ret scale =>
  let title0 := "Angular Profile" ++ ": " ++ output_name ++ " scale=" ++ fmt_num "%g" scale in
  let title := if (80 <? String.length title0)%nat then substring 0 80 title0 else title0 in
  match tth with
  | [] => (Raise IndexError, fs)
  | t0 :: _ =>
  let tth0_cdg := t0 * 100 in
  let dtth_cdg := (last tth t0 - t0) / inject_Z (Z.of_nat (List.length tth) - 1) * 100 in
  (* [if err is None: mode = 'std'] *)
  let mode' := match err with None => Some "std" | Some _ => mode end in
  match mode_lines mode' tth intensity (match err with Some e => e | None => [] end)
          scale tth0_cdg dtth_cdg with
  | Raise e => (Raise e, fs)
  | Ret rest =>
  let lines := set_last ljust80 (ljust80 title :: rest) in
  let rv := String.concat crlf lines ++ crlf in
  match open_check fs file_path with
  | Raise e => (Raise e, fs)
  | Ret _ => (Ret tt, write_file fs file_path rv)
  end end end end end end.

End Printf.

End Gsas.

(** ** [nsls2/spectroscopy.py] : [integrate_ROI] *)
Module Spectroscopy.
Local Open Scope Q_scope.

(** [np.diff] *)
Fixpoint np_diff (l : list Q) : list Q :=
  match l with
  | a :: (b :: _) as t => (b - a) :: np_diff t
  | _ => []
  end.

Definition Qltb (a b : Q) : bool := negb (Qle_bool b a).

(** [x.searchsorted(v)] (side 'left') on an increasing array: the number of
    entries below [v]. *)
Definition searchsorted (x : list Q) (v : Q) : nat :=
  List.length (filter (fun e => Qltb e v) x).

(** The bound checks of [integrate_ROI], in source order, once the
    spectrum [x] passed its own checks. *)
Definition check_bounds (x0 xl : Q) (x_min x_max : list Q) : outcome unit :=
  if negb (Nat.eqb (List.length x_min) (List.length x_max)) then Raise ValueError
  else if existsb (fun '(a, b) => Qle_bool b a) (combine x_min x_max) then Raise ValueError
  else if existsb (fun a => Qle_bool a x0) x_min then Raise ValueError
  else if existsb (fun b => Qle_bool xl b) x_max then Raise ValueError
  else Ret tt.

Section Integrate.

(** [scipy.integrate.simps(y, x)], library code taken as a parameter. *)
Variable simps : list Q -> list Q -> Q.

(** [integrate_ROI(x_value_array, counts, x_min, x_max)] with [x_min],
    [x_max] already flattened to 1-D ([np.atleast_1d(..).ravel()]).  Floats
    are exact rationals; a division by a zero spacing, [nan] in numpy, is
    [0] in [Q], which fails the spacing test the same way. *)
Definition integrate_ROI (x_value_array counts x_min x_max : list Q) : outcome Q :=
  let x := if forallb (fun d => Qltb 0 d) (np_diff x_value_array)
           then x_value_array else rev x_value_array in
  match x with
  | x0 :: x1 :: _ =>
      if negb (forallb (fun d => Qeq_bool (d / (x1 - x0)) 1) (np_diff x))
      then Raise ValueError
      else
      match check_bounds x0 (last x x0) x_min x_max with
      | Raise e => Raise e
      | Ret _ =>
          let bottom_indx := map (searchsorted x) x_min in
          let top_indx := map (fun v => S (searchsorted x v)) x_max in
          Ret (fold_left (fun acc '(bot, top) =>
                            acc + simps (py_slice counts (Z.of_nat bot) (Z.of_nat top))
                                        (py_slice x (Z.of_nat bot) (Z.of_nat top)))
                         (combine bottom_indx top_indx) 0)
      end
  | _ => Raise IndexError  (* [x_value_array[1]] on fewer than two entries *)
  end.

End Integrate.

(** The claim's notion of invalid integration bounds, over the spectrum as
    given. *)
Definition invalid_bounds (x x_min x_max : list Q) : Prop :=
  List.length x_min <> List.length x_max \/
  (exists a b, In (a, b) (combine x_min x_max) /\ b <= a) \/
  (exists a, In a x_min /\ forall v, In v x -> a <= v) \/
  (exists b, In b x_max /\ forall v, In v x -> v <= b).

End Spectroscopy.

(** ** [nsls2/spectroscopy.py] : [align_and_scale] *)
Module PeakFit.
Local Open Scope Q_scope.

Section Align.

(** The peak finder handed to [align_and_scale] (its [pk_find_fun]
    argument, not [None]): [(center, height, width)] of the largest peak. *)
Variable pk_find_fun : list Q -> list Q -> outcome (Q * Q * Q).

(** The loop of [align_and_scale] over [zip(energy_list, counts_list)],
    with the lines printed so far: on an exception the printed lines stay
    printed and the lists built so far are lost. *)
Fixpoint align_loop (base_sigma : option Q) (pairs : list (list Q * list Q))
  : outcome (list (list Q) * list (list Q)) * list (Q * Q * Q) :=
  match pairs with
  | [] => (Ret ([], []), [])
  | (e, c) :: rest =>
      match pk_find_fun e c with
      | Raise ex => (Raise ex, [])
      | Ret (E0, max_val, sigma) =>
          let bs := match base_sigma with None => sigma | Some b => b end in
          let '(res, printed) := align_loop (Some bs) rest in
          ((match res with
            | Raise ex => Raise ex
            | Ret (oe, oc) => Ret (map (fun v => (v - E0) * bs / sigma) e :: oe, c :: oc)
            end), (E0, max_val, sigma) :: printed)
      end
  end.

(** [align_and_scale(energy_list, counts_list, pk_find_fun)]: the result
    [(out_e, out_c)] and the printed [(E0, max_val, sigma)] lines. *)
Definition align_and_scale (energy_list counts_list : list (list Q))
  : outcome (list (list Q) * list (list Q)) * list (Q * Q * Q) :=
  align_loop None (combine energy_list counts_list).

End Align.

End PeakFit.

(** ** [skxray/core/xsvs.py] : [normalize_bin_edges] *)
Module BinEdges.
Local Open Scope Q_scope.

(** [np.arange(n)] for an integer [n] (empty when [n <= 0]). *)
Definition np_arange (n : Z) : list Q :=
  map (fun k => inject_Z (Z.of_nat k)) (seq 0 (Z.to_nat n)).

(** Modelled from the spec: [bin_edges_to_centers] of [skxray.core.utils]
    is not in the source tree.  Its caller documents the result as the
    "normalized speckle count bin centers" and [test_normalize_bin_edges]
    fixes it (centers [0.2, 0.6, 1.0, 1.4] for edges [0, 0.4, 0.8, 1.2,
    1.6]): [edges[:-1] + np.diff(edges) / 2]. *)
Definition bin_edges_to_centers (edges : list Q) : list Q :=
  map (fun '(a, b) => a + (b - a) / 2) (combine edges (tl edges)).

Fixpoint map_outcome {A B} (f : A -> outcome B) (l : list A) : outcome (list B) :=
  match l with
  | [] => Ret []
  | x :: t => match f x with
              | Raise e => Raise e
              | Ret y => match map_outcome f t with
                         | Raise e => Raise e
                         | Ret ys => Ret (y :: ys)
                         end
              end
  end.

(** [np.arange(max_cts*2**i)/(mean_roi[j]*2**i)] *)
Definition edge_entry (mean_roi : list Q) (max_cts : Z) (i j : nat) : outcome (list Q) :=
  match nth_error mean_roi j with
  | Some m => Ret (map (fun k => k / (m * inject_Z (2 ^ Z.of_nat i)))
                       (np_arange (max_cts * 2 ^ Z.of_nat i)))
  | None => Raise IndexError
  end.

(** [normalize_bin_edges(num_times, num_rois, mean_roi, max_cts)]: the two
    [(num_times, num_rois)] object arrays, as lists of rows. *)
Definition normalize_bin_edges (num_times num_rois : nat) (mean_roi : list Q) (max_cts : Z)
  : outcome (list (list (list Q)) * list (list (list Q))) :=
  match map_outcome (fun i => map_outcome (edge_entry mean_roi max_cts i) (seq 0 num_rois))
                    (seq 0 num_times) with
  | Raise e => Raise e
  | Ret edges => Ret (edges, map (map bin_edges_to_centers) edges)
  end.

(** The claim's description of the entries. *)
Definition spec_edges (mean_roi : list Q) (max_cts : Z) (i j : nat) : list Q :=
  map (fun k => k / (nth j mean_roi 0 * inject_Z (2 ^ Z.of_nat i)))
      (np_arange (max_cts * 2 ^ Z.of_nat i)).

Definition midpoints (e : list Q) : list Q :=
  map (fun '(a, b) => (a + b) / 2) (combine e (tl e)).

End BinEdges.

(** ** Generic list lemmas *)

Definition at2 {A} (a : list (list A)) (r c : nat) : option A :=
  match nth_error a r with
  | Some row => nth_error row c
  | None => None
  end.

(** ** Notions the statements below are phrased in *)
Module Views.
Import PyStr.
Local Open Scope string_scope.

Module DpcViews.
Import Dpc.

(** The pixel [(r, c)] is named by a bad-pixel coordinate, with Python's
    index normalisation against the array's shape. *)
Definition hits (nr nc : nat) (r c : nat) (xy : Z * Z) : bool :=
  match norm_index nr (fst xy), norm_index nc (snd xy) with
  | Some r', Some c' => Nat.eqb r' r && Nat.eqb c' c
  | _, _ => false
  end.

Definition is_bad (im : ndarray2) (bad : list (Z * Z)) (r c : nat) : bool :=
  existsb (hits (nrows im) (ncols im) r c) bad.

Definition out_of_range (im : ndarray2) (xy : Z * Z) : bool :=
  match norm_index (nrows im) (fst xy), norm_index (ncols im) (snd xy) with
  | Some _, Some _ => false
  | _, _ => true
  end.

End DpcViews.

Module XsvsViews.
Import Xsvs.

(** What a run may change: only the entries [(level, j)] of [prob_k] and
    [prob_k_pow] for [j] in [js]. *)
Definition frame (lvl : Z) (js : list nat) (st st' : xsvs_args) : Prop :=
  img_per_level st' = img_per_level st /\
  buf st' = buf st /\ labels st' = labels st /\ bin_edges st' = bin_edges st /\
  List.length (prob_k st') = List.length (prob_k st) /\
  List.length (prob_k_pow st') = List.length (prob_k_pow st) /\
  (forall l c, norm_index (List.length (prob_k st)) lvl <> Some l \/ ~ In c js ->
     at2 (prob_k st') l c = at2 (prob_k st) l c) /\
  (forall l c, norm_index (List.length (prob_k_pow st)) lvl <> Some l \/ ~ In c js ->
     at2 (prob_k_pow st') l c = at2 (prob_k_pow st) l c).

End XsvsViews.

(** The words of [s] put in front of the first field of a split. *)
Definition prepend (s : string) (l : list string) : list string :=
  match l with
  | w :: ws => (s ++ w) :: ws
  | [] => [s]
  end.

(** One row as [np.savetxt] writes it, without its newline. *)
Definition row_text {float : Type} (fmt_e : float -> string) (row : list float) : string :=
  String.concat " " (map fmt_e row).

(** Decimal [str] and [int] on naturals: an instance of the formats. *)
Definition nat_parse (s : string) : option nat :=
  option_map Nat.of_uint (NilEmpty.uint_of_string s).

(** [np.sum] of an integer vector. *)
Definition zsum (l : list Z) : Z := fold_right Z.add 0 l.

(** An integration rule for [integrate_ROI]'s [simps] in examples: the
    plain sum of the ordinates. *)
Definition simps_sum (y x : list Q) : Q := fold_left Qplus y 0%Q.

End Views.


Lemma list_set_length {A} (l : list A) n v :
  List.length (list_set l n v) = List.length l.
Proof. revert n; induction l; intros [|n]; simpl; auto. Qed.

Lemma nth_error_list_set_eq {A} (l : list A) n v :
  (n < List.length l)%nat -> nth_error (list_set l n v) n = Some v.
Proof.
  revert n; induction l; intros [|n] H; simpl in *; try lia; auto.
  apply IHl; lia.
Qed.

Lemma nth_error_list_set_neq {A} (l : list A) n m v :
  n <> m -> nth_error (list_set l n v) m = nth_error l m.
Proof.
  revert n m; induction l; intros [|n] [|m] H; simpl; auto; try congruence.
Qed.

Lemma nth_error_list_set {A} (l : list A) n m v :
  nth_error (list_set l n v) m =
  if Nat.eqb n m then option_map (fun _ => v) (nth_error l m) else nth_error l m.
Proof.
  destruct (Nat.eqb_spec n m) as [->|Hne].
  - destruct (Nat.lt_ge_cases m (List.length l)) as [Hl|Hl].
    + rewrite nth_error_list_set_eq by exact Hl.
      destruct (nth_error l m) eqn:E; [reflexivity|].
      apply nth_error_None in E; lia.
    + assert (E : nth_error l m = None) by (apply nth_error_None; lia).
      rewrite E; apply nth_error_None; rewrite list_set_length; lia.
  - apply nth_error_list_set_neq; exact Hne.
Qed.

Lemma norm_index_lt n i r : norm_index n i = Some r -> (r < n)%nat.
Proof.
  unfold norm_index; intros H.
  destruct ((- Z.of_nat n <=? i) && (i <? Z.of_nat n))%Z eqn:E; [|discriminate].
  apply andb_true_iff in E as [E1 E2]; apply Z.leb_le in E1; apply Z.ltb_lt in E2.
  injection H as <-. destruct (Z.ltb_spec i 0); lia.
Qed.

Module DpcFacts.
Import Dpc Views.DpcViews.


Lemma setitem_zero_shape im x y im' :
  setitem_zero im x y = Ret im' -> nrows im' = nrows im /\ ncols im' = ncols im.
Proof.
  unfold setitem_zero, nrows.
  destruct (norm_index (List.length (rows im)) x) as [r0|], (norm_index (ncols im) y);
    try discriminate.
  destruct (nth_error (rows im) r0) eqn:E; intros H; injection H as <-; simpl; auto.
  rewrite list_set_length; auto.
Qed.

Lemma setitem_zero_pixel im x y im' r c :
  setitem_zero im x y = Ret im' ->
  pixel im' r c =
  option_map (fun v => if hits (nrows im) (ncols im) r c (x, y) then 0%Z else v) (pixel im r c).
Proof.
  unfold setitem_zero, hits, pixel; simpl.
  destruct (norm_index (nrows im) x) as [r0|] eqn:Hr, (norm_index (ncols im) y) as [c0|] eqn:Hc;
    try discriminate.
  apply norm_index_lt in Hr. unfold nrows in Hr.
  destruct (nth_error (rows im) r0) as [row|] eqn:E.
  2:{ apply nth_error_None in E; lia. }
  intros H; injection H as <-; simpl.
  rewrite nth_error_list_set.
  destruct (Nat.eqb_spec r0 r) as [<-|Hne]; simpl.
  - rewrite E; simpl. rewrite nth_error_list_set.
    destruct (Nat.eqb_spec c0 c) as [<-|Hnc]; simpl.
    + destruct (nth_error row c0); reflexivity.
    + destruct (nth_error row c); reflexivity.
  - destruct (nth_error (rows im) r) as [row'|]; [|reflexivity].
    destruct (nth_error row' c); reflexivity.
Qed.

Lemma setitem_zero_raise im x y e :
  setitem_zero im x y = Raise e -> out_of_range im (x, y) = true.
Proof.
  unfold setitem_zero, out_of_range; simpl.
  destruct (norm_index (nrows im) x) as [r0|] eqn:Hr, (norm_index (ncols im) y); auto.
  destruct (nth_error (rows im) r0); discriminate.
Qed.

Lemma setitem_zero_ret im x y im' :
  setitem_zero im x y = Ret im' -> out_of_range im (x, y) = false.
Proof.
  unfold setitem_zero, out_of_range; simpl.
  destruct (norm_index (nrows im) x), (norm_index (ncols im) y); auto; discriminate.
Qed.

Lemma hits_out_of_range im r c xy :
  out_of_range im xy = true -> hits (nrows im) (ncols im) r c xy = false.
Proof.
  unfold out_of_range, hits.
  destruct (norm_index (nrows im) (fst xy)), (norm_index (ncols im) (snd xy)); auto; discriminate.
Qed.

Lemma zero_bad_pixels_shape im bad :
  nrows (fst (zero_bad_pixels im bad)) = nrows im /\
  ncols (fst (zero_bad_pixels im bad)) = ncols im.
Proof.
  revert im; induction bad as [|[x y] rest IH]; intros im; simpl; auto.
  destruct (setitem_zero im x y) as [im'|e] eqn:E.
  - destruct (setitem_zero_shape _ _ _ _ E) as [H1 H2].
    destruct (IH im') as [H3 H4]; split; congruence.
  - destruct (zero_bad_pixels im rest) as [im'' out] eqn:Z; simpl.
    specialize (IH im); rewrite Z in IH; exact IH.
Qed.

Lemma zero_bad_pixels_pixel im bad r c :
  pixel (fst (zero_bad_pixels im bad)) r c =
  option_map (fun v => if is_bad im bad r c then 0%Z else v) (pixel im r c).
Proof.
  revert im; induction bad as [|[x y] rest IH]; intros im; simpl.
  - destruct (pixel im r c); reflexivity.
  - unfold is_bad; simpl.
    destruct (setitem_zero im x y) as [im'|e] eqn:E.
    + rewrite IH. rewrite (setitem_zero_pixel _ _ _ _ _ _ E).
      destruct (setitem_zero_shape _ _ _ _ E) as [H1 H2].
      unfold is_bad; rewrite H1, H2.
      destruct (pixel im r c); simpl; [|reflexivity].
      destruct (hits _ _ r c (x, y)), (existsb _ rest); reflexivity.
    + destruct (zero_bad_pixels im rest) as [im'' out] eqn:Z; simpl.
      specialize (IH im); rewrite Z in IH; simpl in IH; rewrite IH.
      rewrite (hits_out_of_range im r c (x, y)) by (eapply setitem_zero_raise; eauto).
      reflexivity.
Qed.

Lemma zero_bad_pixels_stdout im bad :
  snd (zero_bad_pixels im bad) =
  repeat msg_bad_pixel (List.length (filter (out_of_range im) bad)).
Proof.
  revert im; induction bad as [|[x y] rest IH]; intros im; simpl; auto.
  destruct (setitem_zero im x y) as [im'|e] eqn:E.
  - rewrite (setitem_zero_ret _ _ _ _ E), IH.
    destruct (setitem_zero_shape _ _ _ _ E) as [H1 H2].
    f_equal; f_equal; apply filter_ext; intros [a b]; unfold out_of_range; simpl;
      rewrite H1, H2; reflexivity.
  - rewrite (setitem_zero_raise _ _ _ _ E).
    destruct (zero_bad_pixels im rest) as [im'' out] eqn:Z; simpl.
    specialize (IH im); rewrite Z in IH; simpl in IH; rewrite IH; reflexivity.
Qed.

End DpcFacts.
Module XsvsFacts.
Import Xsvs Views.XsvsViews.

Lemma set2_length {A} (a : list (list A)) i j v :
  List.length (set2 a i j v) = List.length a.
Proof.
  unfold set2.
  destruct (norm_index _ i); [|reflexivity].
  destruct (nth_error a n); [|reflexivity].
  destruct (norm_index _ j); [apply list_set_length|reflexivity].
Qed.

Lemma set2_frame {A} (a : list (list A)) i (j : nat) v l c :
  (norm_index (List.length a) i <> Some l \/ c <> j) ->
  at2 (set2 a i (Z.of_nat j) v) l c = at2 a l c.
Proof.
  intros Hlc; unfold set2, at2.
  destruct (norm_index (List.length a) i) as [r|] eqn:Hr; [|reflexivity].
  destruct (nth_error a r) as [row|] eqn:Hrow; [|reflexivity].
  destruct (norm_index (List.length row) (Z.of_nat j)) as [c0|] eqn:Hc; [|reflexivity].
  assert (c0 = j).
  { unfold norm_index in Hc.
    destruct ((- Z.of_nat (List.length row) <=? Z.of_nat j)%Z && (Z.of_nat j <? Z.of_nat (List.length row))%Z);
      [|discriminate].
    injection Hc as <-. destruct (Z.ltb_spec (Z.of_nat j) 0); lia. }
  subst c0.
  rewrite nth_error_list_set.
  destruct (Nat.eqb_spec r l) as [<-|Hne]; [|reflexivity].
  rewrite Hrow; simpl. rewrite nth_error_list_set.
  destruct (Nat.eqb_spec j c) as [<-|Hjc].
  - destruct Hlc as [H|H]; [congruence|]; congruence.
  - reflexivity.
Qed.


Lemma frame_refl lvl js st : frame lvl js st st.
Proof. repeat split; auto. Qed.

Lemma frame_trans lvl js1 js2 st1 st2 st3 :
  frame lvl js1 st1 st2 -> frame lvl js2 st2 st3 -> frame lvl (js1 ++ js2) st1 st3.
Proof.
  intros (A1 & B1 & C1 & D1 & E1 & F1 & G1 & H1) (A2 & B2 & C2 & D2 & E2 & F2 & G2 & H2).
  repeat split; try congruence.
  - intros l c Hlc. rewrite G2, G1; auto.
    + destruct Hlc as [H|H]; [left; exact H|right; intros Hin; apply H, in_or_app; auto].
    + rewrite E1. destruct Hlc as [H|H]; [left; exact H|right; intros Hin; apply H, in_or_app; auto].
  - intros l c Hlc. rewrite H2, H1; auto.
    + destruct Hlc as [H|H]; [left; exact H|right; intros Hin; apply H, in_or_app; auto].
    + rewrite F1. destruct Hlc as [H|H]; [left; exact H|right; intros Hin; apply H, in_or_app; auto].
Qed.

Lemma frame_set_prob_k lvl j st v :
  frame lvl [j] st (with_prob_k st (set2 (prob_k st) lvl (Z.of_nat j) v)).
Proof.
  repeat split; simpl; auto using set2_length.
  intros l c Hlc. apply set2_frame.
  destruct Hlc as [H|H]; [left; exact H|right; intros ->; apply H; left; reflexivity].
Qed.

Lemma frame_set_prob_k_pow lvl j st v :
  frame lvl [j] st (with_prob_k_pow st (set2 (prob_k_pow st) lvl (Z.of_nat j) v)).
Proof.
  repeat split; simpl; auto using set2_length.
  intros l c Hlc. apply set2_frame.
  destruct Hlc as [H|H]; [left; exact H|right; intros ->; apply H; left; reflexivity].
Qed.

Lemma frame_dup lvl j st1 st2 st3 :
  frame lvl [j] st1 st2 -> frame lvl [j] st2 st3 -> frame lvl [j] st1 st3.
Proof.
  intros H1 H2. pose proof (frame_trans _ _ _ _ _ _ H1 H2) as H.
  destruct H as (A & B & C & D & E & F & G & I).
  repeat split; auto.
  - intros l c Hlc; apply G. destruct Hlc as [X|X]; [left|right]; simpl in *; intuition.
  - intros l c Hlc; apply I. destruct Hlc as [X|X]; [left|right]; simpl in *; intuition.
Qed.

Lemma process_roi_frame hist level buf_no j st :
  frame level [j] st (snd (process_roi hist level buf_no j st)).
Proof.
  unfold process_roi.
  destruct (get2 (buf st) level buf_no); simpl; [|apply frame_refl].
  destruct (mask_select _ _ _); simpl; [|apply frame_refl].
  destruct (hist _ _); simpl; [|apply frame_refl].
  destruct (get2 (prob_k st) level (Z.of_nat j)); simpl; [|apply frame_refl].
  destruct (running_mean _ _ _); simpl; [|apply frame_refl].
  destruct (get2 _ level (Z.of_nat j)); simpl; [|apply frame_set_prob_k].
  destruct (running_mean _ _ _); simpl; [|apply frame_set_prob_k].
  set (st1 := with_prob_k st _).
  exact (frame_dup _ _ _ _ _ (frame_set_prob_k _ _ _ _) (frame_set_prob_k_pow level j st1 _)).
Qed.

Lemma roi_loop_frame hist level buf_no js st :
  frame level js st (snd (roi_loop hist level buf_no js st)).
Proof.
  revert st; induction js as [|j js IH]; intros st; simpl; [apply frame_refl|].
  pose proof (process_roi_frame hist level buf_no j st) as Hj.
  destruct (process_roi hist level buf_no j st) as [[u|e] st'] eqn:E; simpl in *.
  - apply (frame_trans _ [j] js _ _ _ Hj (IH st')).
  - destruct Hj as (A & B & C & D & E' & F & G & I).
    repeat split; auto.
    + intros l c Hlc; apply G. destruct Hlc as [X|X]; [left|right]; simpl in *; intuition.
    + intros l c Hlc; apply I. destruct Hlc as [X|X]; [left|right]; simpl in *; intuition.
Qed.

Lemma incr_level_frame level st st1 :
  incr_level level st = Ret st1 ->
  buf st1 = buf st /\ labels st1 = labels st /\ bin_edges st1 = bin_edges st /\
  prob_k st1 = prob_k st /\ prob_k_pow st1 = prob_k_pow st /\
  List.length (img_per_level st1) = List.length (img_per_level st) /\
  (forall l, norm_index (List.length (img_per_level st)) level <> Some l ->
     nth_error (img_per_level st1) l = nth_error (img_per_level st) l).
Proof.
  unfold incr_level.
  destruct (norm_index _ level) as [r|] eqn:Hr; [|discriminate].
  destruct (nth_error (img_per_level st) r); [|discriminate].
  intros H; injection H as <-; simpl.
  repeat split; auto using list_set_length.
  intros l Hl. apply nth_error_list_set_neq. congruence.
Qed.

End XsvsFacts.
Module SpectroscopyFacts.
Import Spectroscopy.
Local Open Scope Q_scope.

Lemma last_in {A} (l : list A) d : l <> [] -> In (last l d) l.
Proof.
  induction l as [|a [|b t] IH]; intros H; [congruence|left; reflexivity|].
  right. apply IH. discriminate.
Qed.

Lemma check_bounds_invalid x x0 xl x_min x_max :
  In x0 x -> In xl x -> invalid_bounds x x_min x_max ->
  check_bounds x0 xl x_min x_max = Raise ValueError.
Proof.
  intros H0 Hl Hinv; unfold check_bounds.
  destruct (Nat.eqb_spec (List.length x_min) (List.length x_max)) as [Heq|Hne];
    simpl; [|reflexivity].
  destruct (existsb (fun '(a, b) => Qle_bool b a) (combine x_min x_max)) eqn:E1;
    [reflexivity|].
  destruct (existsb (fun a => Qle_bool a x0) x_min) eqn:E2; [reflexivity|].
  destruct (existsb (fun b => Qle_bool xl b) x_max) eqn:E3; [reflexivity|].
  exfalso.
  destruct Hinv as [H|[(a & b & Hin & Hba)|[(a & Hin & Ha)|(b & Hin & Hb)]]].
  - exact (H Heq).
  - assert (existsb (fun '(a, b) => Qle_bool b a) (combine x_min x_max) = true) as C.
    { apply existsb_exists. exists (a, b). split; [exact Hin|apply Qle_bool_iff; exact Hba]. }
    congruence.
  - assert (existsb (fun a => Qle_bool a x0) x_min = true) as C.
    { apply existsb_exists. exists a. split; [exact Hin|apply Qle_bool_iff; apply Ha; exact H0]. }
    congruence.
  - assert (existsb (fun b => Qle_bool xl b) x_max = true) as C.
    { apply existsb_exists. exists b. split; [exact Hin|apply Qle_bool_iff; apply Hb; exact Hl]. }
    congruence.
Qed.

End SpectroscopyFacts.

Module BinEdgesFacts.
Import BinEdges.
Local Open Scope Q_scope.

Lemma map_outcome_ret {A B} (f : A -> outcome B) (g : A -> B) (l : list A) :
  (forall a, In a l -> f a = Ret (g a)) -> map_outcome f l = Ret (map g l).
Proof.
  induction l as [|a t IH]; intros H; simpl; [reflexivity|].
  rewrite (H a (or_introl eq_refl)), IH; [reflexivity|].
  intros a' Ha'; apply H; right; exact Ha'.
Qed.

Lemma nth_error_map_seq {A} (f : nat -> A) n i :
  (i < n)%nat -> nth_error (map f (seq 0 n)) i = Some (f i).
Proof.
  intros H. rewrite nth_error_map, nth_error_seq.
  apply Nat.ltb_lt in H. rewrite H. reflexivity.
Qed.

Lemma at2_grid {A} (g : nat -> nat -> A) n m i j :
  (i < n)%nat -> (j < m)%nat ->
  at2 (map (fun i => map (g i) (seq 0 m)) (seq 0 n)) i j = Some (g i j).
Proof.
  intros Hi Hj; unfold at2.
  rewrite (nth_error_map_seq (fun i => map (g i) (seq 0 m))) by exact Hi.
  apply nth_error_map_seq; exact Hj.
Qed.

Lemma at2_map_map {A B} (h : A -> B) (E : list (list A)) i j :
  at2 (map (map h) E) i j = option_map h (at2 E i j).
Proof.
  unfold at2. rewrite nth_error_map.
  destruct (nth_error E i) as [row|]; simpl; [|reflexivity].
  apply nth_error_map.
Qed.

Lemma edge_entry_spec mean_roi max_cts i j :
  (j < List.length mean_roi)%nat ->
  edge_entry mean_roi max_cts i j = Ret (spec_edges mean_roi max_cts i j).
Proof.
  intros Hj; unfold edge_entry, spec_edges.
  destruct (nth_error mean_roi j) as [m|] eqn:E.
  - rewrite (nth_error_nth _ _ _ E). reflexivity.
  - apply nth_error_None in E; lia.
Qed.

Lemma centers_midpoints e :
  Forall2 Qeq (bin_edges_to_centers e) (midpoints e) /\
  List.length (bin_edges_to_centers e) = (List.length e - 1)%nat.
Proof.
  unfold bin_edges_to_centers, midpoints. split.
  - generalize (combine e (tl e)); intros l; induction l as [|[a b] t IH]; simpl;
      constructor; [field|exact IH].
  - rewrite length_map, length_combine, length_tl. lia.
Qed.

End BinEdgesFacts.

Module OutputFacts.
Import PyStr Output Gsas.
Local Open Scope string_scope.

Lemma valid_inputs_raise fs lt li name ext eg dp e :
  _valid_inputs fs lt li name ext eg dp = Raise e -> e = ValueError.
Proof.
  unfold _valid_inputs.
  destruct (negb (Nat.eqb lt li)); [congruence|].
  destruct (String.eqb ext ".xye" && negb eg); [congruence|].
  destruct dp as [d|]; [destruct (path_exists fs d)|]; congruence.
Qed.

Lemma valid_inputs_ret fs lt li name ext eg dp p :
  _valid_inputs fs lt li name ext eg dp = Ret p -> lt = li.
Proof.
  unfold _valid_inputs.
  destruct (Nat.eqb_spec lt li); simpl; [auto|discriminate].
Qed.

Lemma valid_inputs_len fs lt li name ext eg dp :
  lt <> li -> _valid_inputs fs lt li name ext eg dp = Raise ValueError.
Proof.
  intros H; unfold _valid_inputs.
  destruct (Nat.eqb_spec lt li); [contradiction|reflexivity].
Qed.




End OutputFacts.

Module PyStrFacts.
Import PyStr Views.
Local Open Scope string_scope.

Lemma str_app_nil s : s ++ "" = s.
Proof. induction s; simpl; congruence. Qed.

Lemma str_app_assoc a b c : (a ++ b) ++ c = a ++ (b ++ c).
Proof. induction a; simpl; congruence. Qed.

Lemma str_forall_app f a b : str_forall f (a ++ b) = str_forall f a && str_forall f b.
Proof. induction a; simpl; [reflexivity|]. rewrite IHa, andb_assoc. reflexivity. Qed.

Lemma str_forall_impl (f g : ascii -> bool) s :
  (forall c, f c = true -> g c = true) -> str_forall f s = true -> str_forall g s = true.
Proof.
  intros Hfg; induction s; simpl; auto.
  intros H; apply andb_true_iff in H as [H1 H2]. rewrite (Hfg _ H1), IHs; auto.
Qed.

Lemma split_on_nonnil p s : split_on p s <> [].
Proof.
  induction s; simpl; [discriminate|].
  destruct (p a); [discriminate|]. destruct (split_on p s); discriminate.
Qed.


Lemma split_on_app p s1 s2 :
  str_forall (fun c => negb (p c)) s1 = true ->
  split_on p (s1 ++ s2) = prepend s1 (split_on p s2).
Proof.
  induction s1 as [|c s1 IH]; simpl; intros H.
  - destruct (split_on p s2) eqn:E; [exfalso; exact (split_on_nonnil p s2 E)|reflexivity].
  - apply andb_true_iff in H as [Hc H]. apply negb_true_iff in Hc. rewrite Hc, IH by exact H.
    destruct (split_on p s2); reflexivity.
Qed.

Lemma split_on_no_sep p s :
  str_forall (fun c => negb (p c)) s = true -> split_on p s = [s].
Proof.
  intros H. rewrite <- (str_app_nil s) at 1. rewrite split_on_app by exact H.
  simpl. rewrite str_app_nil. reflexivity.
Qed.

Lemma split_line s1 s2 :
  str_forall (fun c => negb (is_nl c)) s1 = true ->
  split_on is_nl (s1 ++ nl ++ s2) = s1 :: split_on is_nl s2.
Proof.
  intros H. rewrite split_on_app by exact H. simpl. rewrite str_app_nil. reflexivity.
Qed.

Lemma split_nl_head s : split_on is_nl (nl ++ s) = "" :: split_on is_nl s.
Proof. reflexivity. Qed.

(** The lines of newline-terminated records. *)
Lemma split_records (t : list string) :
  Forall (fun w => str_forall (fun c => negb (is_nl c)) w = true) t ->
  split_on is_nl (String.concat "" (map (fun w => w ++ nl) t)) = (t ++ [""])%list.
Proof.
  induction t as [|w t IH]; intros H; [reflexivity|].
  inversion H as [|? ? Hw Ht]; subst.
  destruct t as [|w' t'].
  - change (String.concat "" (map (fun w => w ++ nl) [w])) with (w ++ nl ++ "").
    rewrite split_line by exact Hw. reflexivity.
  - change (String.concat "" (map (fun w => w ++ nl) (w :: w' :: t')))
      with ((w ++ nl) ++ "" ++ String.concat "" (map (fun w => w ++ nl) (w' :: t'))).
    rewrite str_app_assoc.
    change (nl ++ "" ++ ?r) with (nl ++ r).
    rewrite split_line by exact Hw. rewrite IH by exact Ht. reflexivity.
Qed.

(** Fields joined by one space split back into the fields. *)
Lemma split_fields (ws : list string) :
  ws <> [] ->
  Forall (fun w => str_forall (fun c => negb (is_ws c)) w = true) ws ->
  split_on is_ws (String.concat " " ws) = ws.
Proof.
  induction ws as [|w t IH]; intros Hne H; [congruence|].
  inversion H as [|? ? Hw Ht]; subst.
  destruct t as [|w' t'].
  - simpl. apply split_on_no_sep; exact Hw.
  - change (String.concat " " (w :: w' :: t')) with (w ++ " " ++ String.concat " " (w' :: t')).
    rewrite split_on_app by exact Hw.
    change (split_on is_ws (" " ++ ?r)) with ("" :: split_on is_ws r).
    rewrite IH by (discriminate || exact Ht). simpl.
    rewrite str_app_nil. reflexivity.
Qed.

Lemma before_hash_id s :
  str_forall (fun c => negb (is_hash c)) s = true -> before_hash s = s.
Proof.
  induction s; simpl; [reflexivity|].
  intros H; apply andb_true_iff in H as [H1 H2]. apply negb_true_iff in H1.
  rewrite H1, IHs by exact H2. reflexivity.
Qed.

Lemma concat_space_chars f ws :
  f " "%char = true -> Forall (fun w => str_forall f w = true) ws ->
  str_forall f (String.concat " " ws) = true.
Proof.
  intros Hsp; induction ws as [|w t IH]; intros H; [reflexivity|].
  inversion H as [|? ? Hw Ht]; subst.
  destruct t as [|w' t']; [exact Hw|].
  change (String.concat " " (w :: w' :: t')) with (w ++ " " ++ String.concat " " (w' :: t')).
  rewrite !str_forall_app, Hw. simpl. rewrite Hsp. simpl. apply IH; exact Ht.
Qed.

Lemma digits_chars (f : ascii -> bool) d :
  (forall c, In c ["0";"1";"2";"3";"4";"5";"6";"7";"8";"9"]%char -> f c = true) ->
  str_forall f (NilEmpty.string_of_uint d) = true.
Proof.
  intros Hd; induction d; simpl; try reflexivity;
    rewrite IHd, Hd; simpl; tauto.
Qed.

End PyStrFacts.

Module OutputRoundTrip.
Import PyStr PyStrFacts Output Views.
Local Open Scope string_scope.

Lemma read_write_file fs p c : read_file (write_file fs p c) p = Some c.
Proof. unfold read_file, write_file; simpl. rewrite String.eqb_refl. reflexivity. Qed.

Lemma filter_all {A} (f : A -> bool) l : Forall (fun x => f x = true) l -> filter f l = l.
Proof. induction 1; simpl; [reflexivity|]. rewrite H, IHForall. reflexivity. Qed.

Lemma digit_not_nl c :
  In c ["0";"1";"2";"3";"4";"5";"6";"7";"8";"9"]%char -> negb (is_nl c) = true.
Proof. intros H; simpl in H; repeat destruct H as [<-|H]; try reflexivity; contradiction. Qed.

(** The file written by [save_output] has six header lines when the
    output name holds no newline. *)
Lemma output_text_lines name n des body :
  str_forall (fun c => negb (is_nl c)) name = true ->
  str_forall (fun c => negb (is_nl c)) des = true ->
  split_on is_nl (output_text name n des body) =
  ([name; " This file contains integrated powder x-ray diffraction intensities."; "";
    ("Number of data points in the file " ++ (py_str_nat n ++ " "))%string; (des ++ hashes)%string; ""]
   ++ split_on is_nl body)%list.
Proof.
  intros Hn Hd. unfold output_text.
  rewrite split_line by exact Hn.
  rewrite split_line by reflexivity.
  rewrite split_nl_head.
  rewrite split_on_app by reflexivity.
  rewrite split_on_app by (apply digits_chars, digit_not_nl).
  rewrite split_line by reflexivity.
  rewrite split_on_app by exact Hd.
  rewrite split_line by reflexivity.
  rewrite split_nl_head. reflexivity.
Qed.

Lemma des_no_nl q :
  str_forall (fun c => negb (is_nl c)) (if String.eqb q "Q" then des_Q else des_2theta) = true.
Proof. destruct (String.eqb q "Q"); reflexivity. Qed.

Section Formats.
Variable float : Type.
Variable fmt_e : float -> string.
Variable parse_float : string -> option float.
Hypothesis parse_fmt : forall x, parse_float (fmt_e x) = Some x.
Hypothesis fmt_nonempty : forall x, fmt_e x <> "".
Hypothesis fmt_chars : forall x, str_forall (fun c => negb (is_ws c || is_hash c)) (fmt_e x) = true.

Local Notation row_text := (Views.row_text fmt_e).


Lemma row_text_chars (f : ascii -> bool) row :
  f " "%char = true ->
  (forall c, negb (is_ws c || is_hash c) = true -> f c = true) ->
  str_forall f (row_text row) = true.
Proof.
  intros Hsp Hf. apply concat_space_chars; [exact Hsp|].
  apply Forall_forall. intros w Hw. apply in_map_iff in Hw as [x [<- _]].
  exact (str_forall_impl _ _ _ Hf (fmt_chars x)).
Qed.

Lemma row_text_no_nl row : str_forall (fun c => negb (is_nl c)) (row_text row) = true.
Proof.
  apply row_text_chars; [reflexivity|]. intros c H.
  unfold is_ws in H. destruct (is_nl c) eqn:E; [|reflexivity].
  unfold is_nl in E. rewrite E in H. rewrite !orb_true_r in H. discriminate.
Qed.

Lemma row_text_fields row :
  row <> [] -> py_split (before_hash (row_text row)) = map fmt_e row.
Proof.
  intros Hne. rewrite before_hash_id.
  2:{ apply row_text_chars; [reflexivity|]. intros c H.
      destruct (is_hash c); [rewrite orb_true_r in H; discriminate|reflexivity]. }
  unfold py_split, row_text. rewrite split_fields.
  - apply filter_all, Forall_forall. intros w Hw. apply in_map_iff in Hw as [x [<- _]].
    destruct (String.eqb_spec (fmt_e x) "") as [E|E]; [exfalso; exact (fmt_nonempty x E)|reflexivity].
  - destruct row; [congruence|discriminate].
  - apply Forall_forall. intros w Hw. apply in_map_iff in Hw as [x [<- _]].
    refine (str_forall_impl _ _ _ _ (fmt_chars x)). intros c H.
    destruct (is_ws c); [discriminate|reflexivity].
Qed.

Lemma parse_row_fmt row : parse_row float parse_float (map fmt_e row) = Some row.
Proof.
  induction row as [|x row IH]; [reflexivity|].
  unfold parse_row in *; simpl. rewrite IH, parse_fmt. reflexivity.
Qed.

(** [np.loadtxt(f, skiprows=6)] of a file [save_output] wrote returns the
    rows [np.savetxt] wrote. *)
Lemma loadtxt_output_text name n des rows :
  str_forall (fun c => negb (is_nl c)) name = true ->
  str_forall (fun c => negb (is_nl c)) des = true ->
  Forall (fun row => row <> []) rows ->
  loadtxt float parse_float 6 (output_text name n des (savetxt float fmt_e rows)) = Some rows.
Proof.
  intros Hn Hd Hrows. unfold loadtxt.
  rewrite output_text_lines by assumption.
  replace (savetxt float fmt_e rows)
    with (String.concat "" (map (fun w => w ++ nl) (map row_text rows)))
    by (unfold savetxt; rewrite map_map; reflexivity).
  rewrite split_records.
  2:{ apply Forall_forall. intros w Hw. apply in_map_iff in Hw as [r [<- _]].
      apply row_text_no_nl. }
  simpl skipn.
  induction Hrows as [|row rows Hne Hrows IH]; [reflexivity|].
  simpl map. rewrite row_text_fields by exact Hne.
  simpl filter. destruct row as [|x row']; [congruence|]. simpl negb.
  cbn [fold_right]. rewrite IH. rewrite parse_row_fmt. reflexivity.
Qed.

End Formats.

Lemma column_cons {A} k (row : list A) rows :
  column A k (row :: rows) =
  ((match nth_error row k with Some v => [v] | None => [] end) ++ column A k rows)%list.
Proof. reflexivity. Qed.

Lemma column_rows2 {A} (a b : list A) :
  List.length a = List.length b ->
  column A 0 (map (fun '(x, y) => [x; y]) (combine a b)) = a /\
  column A 1 (map (fun '(x, y) => [x; y]) (combine a b)) = b.
Proof.
  revert b; induction a as [|x a IH]; intros [|y b] H; try discriminate; [split; reflexivity|].
  simpl in H. destruct (IH b) as [H1 H2]; [lia|].
  change (combine (x :: a) (y :: b)) with ((x, y) :: combine a b).
  rewrite map_cons, !column_cons, H1, H2. split; reflexivity.
Qed.

Lemma column_rows3 {A} (a b c : list A) :
  List.length a = List.length b -> List.length c = List.length a ->
  column A 0 (map (fun '(x, y, z) => [x; y; z]) (combine (combine a b) c)) = a /\
  column A 1 (map (fun '(x, y, z) => [x; y; z]) (combine (combine a b) c)) = b /\
  column A 2 (map (fun '(x, y, z) => [x; y; z]) (combine (combine a b) c)) = c.
Proof.
  revert b c; induction a as [|x a IH]; intros [|y b] [|z c] H1 H2; try discriminate;
    [repeat split; reflexivity|].
  simpl in H1, H2. destruct (IH b c) as [E1 [E2 E3]]; [lia|lia|].
  change (combine (combine (x :: a) (y :: b)) (z :: c)) with ((x, y, z) :: combine (combine a b) c).
  rewrite map_cons, !column_cons, E1, E2, E3. repeat split; reflexivity.
Qed.


Lemma nat_parse_fmt n : nat_parse (py_str_nat n) = Some n.
Proof. unfold nat_parse, py_str_nat. rewrite NilEmpty.usu. simpl. rewrite DecimalNat.Unsigned.of_to. reflexivity. Qed.

Lemma py_str_nat_nonempty n : py_str_nat n <> "".
Proof.
  intros H. pose proof (nat_parse_fmt n) as E. rewrite H in E.
  vm_compute in E. injection E as <-. discriminate H.
Qed.

Lemma py_str_nat_fields n : str_forall (fun c => negb (is_ws c || is_hash c)) (py_str_nat n) = true.
Proof.
  apply digits_chars. intros c Hc; simpl in Hc.
  repeat destruct Hc as [<-|Hc]; try reflexivity; contradiction.
Qed.

End OutputRoundTrip.

Module DpcMore.
Import Dpc Views.

Lemma norm_slice_bound_le n b : (norm_slice_bound n b <= n)%nat.
Proof.
  unfold norm_slice_bound. apply Nat2Z.inj_le.
  destruct (Z.ltb_spec b 0); rewrite Z2Nat.id; lia.
Qed.

Lemma py_slice_length {A} (l : list A) a b :
  List.length (py_slice l a b) =
  (norm_slice_bound (List.length l) b - norm_slice_bound (List.length l) a)%nat.
Proof.
  unfold py_slice. rewrite length_firstn, length_skipn.
  pose proof (norm_slice_bound_le (List.length l) b). lia.
Qed.

Lemma in_firstn_l {A} n (l : list A) v : In v (firstn n l) -> In v l.
Proof. intros H. rewrite <- (firstn_skipn n l). apply in_or_app; left; exact H. Qed.

Lemma in_skipn_l {A} n (l : list A) v : In v (skipn n l) -> In v l.
Proof. intros H. rewrite <- (firstn_skipn n l). apply in_or_app; right; exact H. Qed.

Lemma py_slice_in {A} (l : list A) a b v : In v (py_slice l a b) -> In v l.
Proof. unfold py_slice. intros H. eapply in_skipn_l, in_firstn_l, H. Qed.

Lemma slice2_wf im x1 y1 x2 y2 :
  well_formed im -> well_formed (slice2 im x1 y1 x2 y2).
Proof.
  unfold well_formed, slice2; simpl. intros H.
  apply Forall_forall. intros r Hr. apply in_map_iff in Hr as [row [<- Hrow]].
  apply py_slice_in in Hrow. rewrite Forall_forall in H. specialize (H row Hrow).
  rewrite py_slice_length, H. reflexivity.
Qed.

Lemma setitem_zero_wf im x y im' :
  well_formed im -> setitem_zero im x y = Ret im' -> well_formed im'.
Proof.
  unfold setitem_zero, well_formed. intros H.
  destruct (norm_index (nrows im) x) as [r0|], (norm_index (ncols im) y) as [c0|]; try discriminate.
  destruct (nth_error (rows im) r0) as [row|] eqn:E; intros Hr; injection Hr as <-; [|exact H].
  simpl. apply Forall_forall. intros r Hin.
  assert (Hrow : List.length row = ncols im)
    by (rewrite Forall_forall in H; apply H; eapply nth_error_In; eauto).
  rewrite Forall_forall in H.
  apply In_nth_error in Hin as [k Hk]. rewrite nth_error_list_set in Hk.
  destruct (Nat.eqb r0 k).
  - destruct (nth_error (rows im) k); simpl in Hk; [|discriminate].
    injection Hk as <-. rewrite list_set_length. exact Hrow.
  - apply H. eapply nth_error_In; eauto.
Qed.

Lemma zero_bad_pixels_wf im bad :
  well_formed im -> well_formed (fst (zero_bad_pixels im bad)).
Proof.
  revert im; induction bad as [|[x y] rest IH]; intros im H; simpl; auto.
  destruct (setitem_zero im x y) as [im'|e] eqn:E.
  - apply IH. eapply setitem_zero_wf; eauto.
  - destruct (zero_bad_pixels im rest) as [im'' out] eqn:Z; simpl.
    specialize (IH im H); rewrite Z in IH; exact IH.
Qed.

Lemma vec_add_length a b :
  List.length a = List.length b -> List.length (vec_add a b) = List.length a.
Proof. revert b; induction a as [|x a IH]; intros [|y b] H; simpl in *; try lia. rewrite IH; lia. Qed.

Lemma vec_add_zsum a b :
  List.length a = List.length b -> zsum (vec_add a b) = zsum a + zsum b.
Proof. revert b; induction a as [|x a IH]; intros [|y b] H; simpl in *; try lia. rewrite IH; lia. Qed.

Lemma zsum_repeat0 n : zsum (repeat 0 n) = 0.
Proof. induction n; simpl; lia. Qed.

Lemma fold_vec_add rows acc :
  Forall (fun r => List.length r = List.length acc) rows ->
  List.length (fold_left vec_add rows acc) = List.length acc /\
  zsum (fold_left vec_add rows acc) = zsum acc + zsum (map zsum rows).
Proof.
  revert acc; induction rows as [|r rows IH]; intros acc H; simpl; [split; lia|].
  inversion H as [|? ? Hr Hrs]; subst.
  assert (Hl : List.length (vec_add acc r) = List.length acc) by (apply vec_add_length; lia).
  destruct (IH (vec_add acc r)) as [H1 H2]; [rewrite Hl; exact Hrs|].
  split; [lia|]. rewrite H2, vec_add_zsum by lia. lia.
Qed.

Lemma sum_axis0_wf im :
  well_formed im ->
  List.length (sum_axis0 im) = ncols im /\ zsum (sum_axis0 im) = zsum (map zsum (rows im)).
Proof.
  unfold well_formed, sum_axis0. intros H.
  destruct (fold_vec_add (rows im) (repeat 0 (ncols im))) as [H1 H2].
  - rewrite repeat_length; exact H.
  - rewrite H1, H2, repeat_length, zsum_repeat0. split; lia.
Qed.

End DpcMore.

Module SpectroscopyMore.
Import Spectroscopy SpectroscopyFacts.
Local Open Scope Q_scope.

Lemma np_diff_snoc l a d :
  l <> [] -> np_diff (l ++ [a]) = np_diff l ++ [a - last l d].
Proof.
  induction l as [|b t IH]; intros H; [congruence|].
  destruct t as [|c t']; [reflexivity|].
  change ((b :: c :: t') ++ [a]) with (b :: ((c :: t') ++ [a])).
  change (np_diff (b :: ((c :: t') ++ [a]))) with ((c - b) :: np_diff ((c :: t') ++ [a])).
  rewrite IH by discriminate. reflexivity.
Qed.

Lemma rev_decreasing l :
  Forall (fun d => d < 0) (np_diff l) -> Forall (fun d => 0 < d) (np_diff (rev l)).
Proof.
  induction l as [|x t IH]; intros H; [constructor|].
  destruct t as [|y t']; [constructor|].
  simpl in H. inversion H as [|? ? Hxy Ht]; subst.
  change (rev (x :: y :: t')) with (rev (y :: t') ++ [x]).
  rewrite (np_diff_snoc _ _ x) by (simpl; intros E; apply app_eq_nil in E as [_ E]; discriminate).
  apply Forall_app; split; [apply IH; exact Ht|].
  constructor; [|constructor].
  simpl. rewrite last_last. apply Qlt_minus_iff. 
  setoid_replace (x - y + - 0) with (- (y - x)) by ring. 
  apply Qopp_lt_compat in Hxy. setoid_replace (- 0) with 0 in Hxy by reflexivity. exact Hxy.
Qed.

Lemma forallb_pos l :
  forallb (fun d => Qltb 0 d) l = true <-> Forall (fun d => 0 < d) l.
Proof.
  rewrite forallb_forall, Forall_forall. unfold Qltb.
  split; intros H d Hd; specialize (H d Hd).
  - apply negb_true_iff in H. apply Qnot_le_lt. intros C. apply Qle_bool_iff in C. congruence.
  - apply negb_true_iff. destruct (Qle_bool d 0) eqn:E; [|reflexivity].
    apply Qle_bool_iff in E. exfalso. apply (Qlt_not_le _ _ H E).
Qed.












End SpectroscopyMore.

Module PeakFitFacts.
Import PeakFit.
Local Open Scope Q_scope.

Lemma align_loop_shapes pk bs pairs oe oc printed :
  align_loop pk bs pairs = (Ret (oe, oc), printed) ->
  oc = map snd pairs /\ List.length printed = List.length pairs /\
  Forall2 (fun a e => List.length a = List.length e) oe (map fst pairs).
Proof.
  revert bs oe oc printed; induction pairs as [|[e c] rest IH]; intros bs oe oc printed H; simpl in H.
  - inversion H; subst. repeat split; constructor.
  - destruct (pk e c) as [[[E0 mv] s]|ex]; [|discriminate].
    destruct (align_loop pk _ rest) as [[[oe' oc']|ex] pr] eqn:R; [|discriminate].
    inversion H; subst.
    destruct (IH _ _ _ _ R) as [H1 [H2 H3]].
    simpl. rewrite H1, H2. repeat split.
    constructor; [apply length_map|exact H3].
Qed.

End PeakFitFacts.

Module OutputMore.
Import PyStr Output Gsas OutputFacts OutputRoundTrip.
Local Open Scope string_scope.

Lemma read_write_other fs p q c : p <> q -> read_file (write_file fs q c) p = read_file fs p.
Proof.
  intros Hpq. unfold read_file, write_file; simpl.
  destruct (String.eqb_spec p q) as [E|_]; [contradiction|].
  f_equal. induction (fs_files fs) as [|[r v] l IH]; simpl; [reflexivity|].
  destruct (String.eqb_spec q r) as [<-|Hqr]; simpl.
  - destruct (String.eqb_spec p q); [contradiction|]. exact IH.
  - destruct (String.eqb p r); [reflexivity|exact IH].
Qed.

Lemma read_write_cases fs q c p :
  read_file (write_file fs q c) p = read_file fs p \/ p = q.
Proof.
  destruct (String.eqb_spec p q); [right; assumption|left; apply read_write_other; assumption].
Qed.

Lemma str_length_app a b : String.length (a ++ b) = (String.length a + String.length b)%nat.
Proof. induction a; simpl; auto. Qed.

Lemma str_length_of_list l : String.length (string_of_list_ascii l) = List.length l.
Proof. induction l; simpl; auto. Qed.

Lemma ljust80_length s : (String.length s <= 80)%nat -> String.length (ljust80 s) = 80%nat.
Proof.
  intros H. unfold ljust80. rewrite str_length_app, str_length_of_list, repeat_length. lia.
Qed.

Lemma substring0_length m s : (m <= String.length s)%nat -> String.length (substring 0 m s) = m.
Proof.
  revert s; induction m as [|m IH]; intros s H; [destruct s; reflexivity|].
  destruct s as [|c s]; simpl in *; [lia|]. f_equal. apply IH. lia.
Qed.

Lemma title_le t :
  (String.length (if (80 <? String.length t)%nat then substring 0 80 t else t) <= 80)%nat.
Proof.
  destruct (Nat.ltb_spec 80 (String.length t)).
  - rewrite substring0_length; lia.
  - assumption.
Qed.

Lemma set_last_snoc f l x : set_last f (l ++ [x])%list = (l ++ [f x])%list.
Proof. unfold set_last. rewrite rev_app_distr. simpl. rewrite rev_involutive. reflexivity. Qed.

Lemma set_last_cons2 f a b (l : list string) :
  l <> [] -> exists l', set_last f (a :: b :: l) = a :: b :: l' /\ List.length l' = List.length l.
Proof.
  intros Hl. destruct (exists_last Hl) as [l0 [x ->]].
  exists (l0 ++ [f x])%list. split.
  - change (a :: b :: (l0 ++ [x]))%list with ((a :: b :: l0) ++ [x])%list.
    rewrite set_last_snoc. reflexivity.
  - rewrite !length_app. reflexivity.
Qed.

Lemma chunks_aux_length {A} fuel n (l : list A) :
  (1 <= n)%nat -> (List.length l <= fuel)%nat ->
  List.length (chunks_aux fuel n l) = ((List.length l + n - 1) / n)%nat.
Proof.
  intros Hn. revert l; induction fuel as [|f IH]; intros l Hf.
  - destruct l; simpl in *; [|lia]. symmetry. apply Nat.div_small. lia.
  - destruct l as [|a l'].
    + simpl. symmetry. apply Nat.div_small. lia.
    + cbn [chunks_aux]. change (List.length (firstn n (a :: l') :: chunks_aux f n (skipn n (a :: l'))))
        with (S (List.length (chunks_aux f n (skipn n (a :: l'))))).
      rewrite IH by (rewrite length_skipn; cbn [List.length] in *; lia).
      rewrite length_skipn. set (len := List.length (a :: l')).
      assert (1 <= len)%nat by (subst len; simpl; lia).
      destruct (Nat.le_gt_cases len n).
      * replace (len - n + n - 1)%nat with (n - 1)%nat by lia.
        rewrite (Nat.div_small (n - 1)) by lia.
        apply (Nat.div_unique _ _ 1 (len - 1)); lia.
      * replace (len + n - 1)%nat with ((len - n + n - 1) + 1 * n)%nat by lia.
        rewrite Nat.div_add by lia. lia.
Qed.

Lemma chunks_length {A} n (l : list A) :
  (1 <= n)%nat -> List.length (chunks n l) = ((List.length l + n - 1) / n)%nat.
Proof. intros Hn. apply chunks_aux_length; lia. Qed.

Lemma combine3_length {A B C} (a : list A) (b : list B) (c : list C) :
  List.length (combine3 a b c) = Nat.min (List.length a) (Nat.min (List.length b) (List.length c)).
Proof.
  revert b c; induction a as [|x a IH]; intros [|y b] [|z c]; simpl; auto.
Qed.

Lemma mode_lines_shape fmt_num fmt_int mode tth intensity err scale t0 dt rest :
  mode_lines fmt_num fmt_int mode tth intensity err scale t0 dt = Ret rest ->
  intensity <> [] -> List.length tth = List.length intensity ->
  (mode = Some "std" \/ List.length err = List.length intensity) ->
  exists kind n_rec recs,
    rest = ljust80 (bank_line fmt_num fmt_int kind (List.length intensity) n_rec t0 dt) :: recs /\
    List.length recs = n_rec /\ (1 <= n_rec)%nat.
Proof.
  intros H Hne Ht Herr. unfold mode_lines in H.
  assert (Hpos : (1 <= List.length intensity)%nat) by (destruct intensity; [congruence|simpl; lia]).
  destruct mode as [m|]; [|discriminate]. cbn beta iota in H.
  destruct (String.eqb_spec m "std") as [Es|Ns].
  - injection H as <-. do 3 eexists. split; [reflexivity|].
    rewrite length_map, chunks_length, length_map by lia.
    replace (List.length intensity + 10 - 1)%nat with (List.length intensity + 9)%nat by lia.
    split; [reflexivity|].
    change (1 <= (List.length intensity + 9) / 10)%nat.
    apply Nat.div_le_lower_bound; lia.
  - assert (Herr' : List.length err = List.length intensity)
      by (destruct Herr as [E|E]; [injection E as E; contradiction|exact E]).
    destruct (String.eqb m "esd").
    + injection H as <-. do 3 eexists. split; [reflexivity|].
      rewrite length_map, chunks_length, length_map, length_combine, Herr', Nat.min_id by lia.
      replace (List.length intensity + 5 - 1)%nat with (List.length intensity + 4)%nat by lia.
      split; [reflexivity|]. change (1 <= (List.length intensity + 4) / 5)%nat.
      apply Nat.div_le_lower_bound; lia.
    + destruct (String.eqb m "fxye"); [|discriminate].
      injection H as <-. do 3 eexists. split; [reflexivity|].
      rewrite !length_map, combine3_length, Herr', Ht, !Nat.min_id. split; [reflexivity|lia].
Qed.

End OutputMore.

Module Claims.
Import Dpc DpcFacts Xsvs XsvsFacts Views.DpcViews Views.XsvsViews.

(** C1 (counterexample): [image_reduction] called with a bad-pixel list
    changes the caller's array: [im = [[1,2],[3,4]]] with
    [bad_pixels = [(0, 0)]] leaves the caller holding [[0,2],[3,4]]. *)
Lemma C1_image_reduction_mutates :
  match image_reduction (mk_ndarray2 2 [[1;2];[3;4]]) None (Some [(0, 0)]) with
  | Ret res => caller_im res = mk_ndarray2 2 [[0;2];[3;4]] /\
               caller_im res <> mk_ndarray2 2 [[1;2];[3;4]]
  | Raise _ => False
  end.
Proof. vm_compute. split; [reflexivity|discriminate]. Qed.

(** C1 (amended): [image_reduction] writes a zero into the caller's [im]
    at every in-range bad pixel (Python index normalisation) and leaves every
    other pixel of it unchanged; without [bad_pixels] the caller's array is
    untouched.  [_process] updates [img_per_level] at [level] and the
    entries [(level, j)], [j < num_roi], of [prob_k] and [prob_k_pow] in
    place, and changes nothing else: [buf], [labels], [bin_edges] and all
    other entries keep their values, whether or not it raises. *)
Theorem C1_mutation_frame :
  (forall im roi bad,
     match image_reduction im roi (Some bad) with
     | Ret res => forall r c, pixel (caller_im res) r c =
                  option_map (fun v => if is_bad im bad r c then 0%Z else v) (pixel im r c)
     | Raise _ => False
     end) /\
  (forall im roi,
     match image_reduction im roi None with
     | Ret res => caller_im res = im
     | Raise _ => False
     end) /\
  (forall hist level buf_no num_roi st,
     let st' := snd (_process hist level buf_no num_roi st) in
     buf st' = buf st /\ labels st' = labels st /\ bin_edges st' = bin_edges st /\
     (forall l, norm_index (List.length (img_per_level st)) level <> Some l ->
        nth_error (img_per_level st') l = nth_error (img_per_level st) l) /\
     (forall l c, norm_index (List.length (prob_k st)) level <> Some l \/ (num_roi <= c)%nat ->
        at2 (prob_k st') l c = at2 (prob_k st) l c) /\
     (forall l c, norm_index (List.length (prob_k_pow st)) level <> Some l \/ (num_roi <= c)%nat ->
        at2 (prob_k_pow st') l c = at2 (prob_k_pow st) l c)).
Proof.
  split; [|split].
  - intros im roi bad; unfold image_reduction.
    pose proof (zero_bad_pixels_pixel im bad) as H.
    destruct (zero_bad_pixels im bad) as [im1 out]; simpl in *.
    exact H.
  - intros im roi; reflexivity.
  - intros hist level buf_no num_roi st st'; subst st'; unfold _process.
    destruct (incr_level level st) as [st1|e] eqn:E; simpl.
    2:{ repeat split; auto. }
    destruct (incr_level_frame _ _ _ E) as (B & L & BE & P & PP & Len & I).
    destruct (roi_loop_frame hist level buf_no (seq 0 num_roi) st1)
      as (A2 & B2 & C2 & D2 & E2 & F2 & G2 & H2).
    assert (Hseq : forall c, (num_roi <= c)%nat -> ~ In c (seq 0 num_roi)).
    { intros c Hc Hin; apply in_seq in Hin; lia. }
    repeat split; try congruence.
    + intros l Hl. rewrite A2. apply I; exact Hl.
    + intros l c Hlc. rewrite G2, P; [reflexivity|]. rewrite P.
      destruct Hlc as [X|X]; [left; exact X|right; apply Hseq; exact X].
    + intros l c Hlc. rewrite H2, PP; [reflexivity|]. rewrite PP.
      destruct Hlc as [X|X]; [left; exact X|right; apply Hseq; exact X].
Qed.

(** C2 (counterexample): [image_reduction] catches the [IndexError] of an
    out-of-range bad pixel and still returns a result: on a 2x2 image the
    assignment [im[5, 5] = 0] raises, yet the call returns the line sums
    after printing one message. *)
Lemma C2_index_error_caught :
  setitem_zero (mk_ndarray2 2 [[1;2];[3;4]]) 5 5 = Raise IndexError /\
  image_reduction (mk_ndarray2 2 [[1;2];[3;4]]) None (Some [(5, 5)]) =
  Ret (mk_call_result (mk_ndarray2 2 [[1;2];[3;4]]) [msg_bad_pixel] [4;6] [3;7]).
Proof. split; reflexivity. Qed.

(** C2 (amended): [image_reduction] never propagates an error from a bad
    pixel or from the ROI: for every image, ROI and bad-pixel list it
    returns, printing one message per out-of-range bad pixel, which it
    skips, and it returns the axis sums of the (ROI of the) zeroed array. *)
Theorem C2_image_reduction_recovers :
  forall im roi bad,
    match image_reduction im roi (Some bad) with
    | Ret res =>
        stdout res = repeat msg_bad_pixel (List.length (filter (out_of_range im) bad)) /\
        (let local := match roi with
                      | Some (x1, y1, x2, y2) => slice2 (caller_im res) x1 y1 x2 y2
                      | None => caller_im res
                      end in
         xline res = sum_axis0 local /\ yline res = sum_axis1 local)
    | Raise _ => False
    end.
Proof.
  intros im roi bad; unfold image_reduction.
  pose proof (zero_bad_pixels_stdout im bad) as H.
  destruct (zero_bad_pixels im bad) as [im1 out]; simpl in *.
  split; [exact H|split; reflexivity].
Qed.

End Claims.

Module Claims2.
Import Spectroscopy SpectroscopyFacts BinEdges BinEdgesFacts.
Local Open Scope Q_scope.

(** C6 (counterexample): with a one-point spectrum the bounds
    [x_min = [1] >= x_max = [0]] are invalid, yet the call raises an
    [IndexError] (from [x_value_array[1]]), not a [ValueError], whatever
    [simps] is. *)
Lemma C6_short_spectrum_index_error :
  invalid_bounds [0] [1] [0] /\
  (forall simps : list Q -> list Q -> Q,
     integrate_ROI simps [0] [5] [1] [0] = Raise IndexError).
Proof.
  split.
  - right; left. exists 1, 0. split; [left; reflexivity|discriminate].
  - intros simps; reflexivity.
Qed.

(** C6 (amended): for invalid integration bounds (different lengths, some
    [x_min] entry at or above its [x_max] entry, some [x_min] at or below
    the lowest x value, some [x_max] at or above the highest) [integrate_ROI]
    never returns an integral, and it raises [ValueError] whenever
    [x_value_array] has at least two entries. *)
Theorem C6_integrate_ROI_invalid_bounds :
  forall simps x counts x_min x_max,
    invalid_bounds x x_min x_max ->
    is_raise (integrate_ROI simps x counts x_min x_max) = true /\
    ((2 <= List.length x)%nat -> integrate_ROI simps x counts x_min x_max = Raise ValueError).
Proof.
  intros simps x counts x_min x_max Hinv; unfold integrate_ROI.
  remember (if forallb (fun d => Qltb 0 d) (np_diff x) then x else rev x) as x' eqn:Ex.
  assert (Hin : forall v, In v x' -> In v x).
  { intros v Hv; destruct (forallb _ _); subst x'; [exact Hv|apply in_rev; exact Hv]. }
  assert (Hlen : List.length x' = List.length x).
  { destruct (forallb _ _); subst x'; [reflexivity|apply length_rev]. }
  destruct x' as [|x0 [|x1 t]].
  - split; [reflexivity|simpl in Hlen; lia].
  - split; [reflexivity|simpl in Hlen; lia].
  - destruct (negb _); [split; reflexivity|].
    rewrite (check_bounds_invalid x); [split; reflexivity| | |exact Hinv].
    + apply Hin; left; reflexivity.
    + apply Hin, last_in; discriminate.
Qed.

(** Witness: a spectrum [0, 1, 2] with [x_min = [0]] (not above the
    lowest value) raises [ValueError]. *)
Lemma C6_integrate_ROI_invalid_bounds_witness :
  invalid_bounds [0; 1; 2] [0] [1] /\
  is_raise (integrate_ROI (fun _ _ => 0) [0; 1; 2] [1; 1; 1] [0] [1]) = true /\
  integrate_ROI (fun _ _ => 0) [0; 1; 2] [1; 1; 1] [0] [1] = Raise ValueError.
Proof.
  assert (H : invalid_bounds [0; 1; 2] [0] [1]).
  { right; right; left. exists 0. split; [left; reflexivity|].
    intros v [<-|[<-|[<-|[]]]]; vm_compute; discriminate. }
  pose proof (C6_integrate_ROI_invalid_bounds (fun _ _ => 0) [0; 1; 2] [1; 1; 1] [0] [1] H)
    as [H1 H2].
  split; [exact H|split; [exact H1|apply H2; simpl; lia]].
Defined.

(** C10: for [max_cts >= 1] and at least [num_rois] positive means,
    [normalize_bin_edges] returns two [(num_times, num_rois)] arrays; entry
    [(i, j)] of the first is [arange(max_cts * 2^i) / (mean_roi[j] * 2^i)]
    and entry [(i, j)] of the second is the list of midpoints of its
    consecutive edges, one element shorter. *)
Theorem C10_normalize_bin_edges :
  forall num_times num_rois mean_roi max_cts,
    (1 <= max_cts)%Z ->
    (num_rois <= List.length mean_roi)%nat ->
    (forall j, (j < num_rois)%nat -> 0 < nth j mean_roi 0) ->
    match normalize_bin_edges num_times num_rois mean_roi max_cts with
    | Ret (E, C) =>
        List.length E = num_times /\ List.length C = num_times /\
        Forall (fun r => List.length r = num_rois) E /\
        Forall (fun r => List.length r = num_rois) C /\
        forall i j, (i < num_times)%nat -> (j < num_rois)%nat ->
          exists e c, at2 E i j = Some e /\ at2 C i j = Some c /\
                      e = spec_edges mean_roi max_cts i j /\
                      Forall2 Qeq c (midpoints e) /\
                      List.length c = (List.length e - 1)%nat
    | Raise _ => False
    end.
Proof.
  intros num_times num_rois mean_roi max_cts Hmax Hlen Hpos.
  unfold normalize_bin_edges.
  rewrite (map_outcome_ret _ (fun i => map (spec_edges mean_roi max_cts i) (seq 0 num_rois))).
  2:{ intros i _. apply map_outcome_ret. intros j Hj. apply in_seq in Hj.
      apply edge_entry_spec. lia. }
  repeat split.
  - rewrite length_map, length_seq; reflexivity.
  - rewrite !length_map, length_seq; reflexivity.
  - apply Forall_forall. intros r Hr. apply in_map_iff in Hr as (i & <- & _).
    rewrite length_map, length_seq; reflexivity.
  - apply Forall_forall. intros r Hr. apply in_map_iff in Hr as (r' & <- & Hr').
    apply in_map_iff in Hr' as (i & <- & _).
    rewrite !length_map, length_seq; reflexivity.
  - intros i j Hi Hj.
    rewrite at2_map_map, (at2_grid (spec_edges mean_roi max_cts)) by assumption; simpl.
    eexists; eexists; repeat split; try reflexivity.
    + apply centers_midpoints.
    + apply centers_midpoints.
Qed.

(** Witness: the values of [test_normalize_bin_edges]. *)
Lemma C10_normalize_bin_edges_witness :
  match normalize_bin_edges 3 2 [5 # 2; 4] 5 with
  | Ret (E, C) =>
      List.length E = 3%nat /\ List.length C = 3%nat /\
      Forall (fun r => List.length r = 2%nat) E /\
      Forall (fun r => List.length r = 2%nat) C /\
      forall i j, (i < 3)%nat -> (j < 2)%nat ->
        exists e c, at2 E i j = Some e /\ at2 C i j = Some c /\
                    e = spec_edges [5 # 2; 4] 5 i j /\
                    Forall2 Qeq c (midpoints e) /\
                    List.length c = (List.length e - 1)%nat
  | Raise _ => False
  end.
Proof.
  apply C10_normalize_bin_edges.
  - lia.
  - simpl; lia.
  - intros [|[|j]] Hj; [reflexivity|reflexivity|lia].
Defined.

End Claims2.

Module Claims3.
Import PyStr Output Gsas OutputFacts.
Local Open Scope string_scope.




(** C5: when [tth] and [intensity] differ in length, or [q_or_2theta] is
    neither ['Q'] nor ['2theta'], [save_output] raises [ValueError] and the
    file system is unchanged. *)
Theorem C5_save_output_rejects :
  forall (float : Type) (fmt_e : float -> string) fs tth intensity output_name q_or_2theta
         ext err dir_path,
    (List.length tth <> List.length intensity \/
     (q_or_2theta <> "Q" /\ q_or_2theta <> "2theta")) ->
    save_output float fmt_e fs tth intensity output_name q_or_2theta ext err dir_path =
    (Raise ValueError, fs).
Proof.
  intros float fmt_e fs tth intensity output_name q ext err dir_path H.
  unfold save_output.
  destruct (String.eqb_spec q "Q") as [Hq|Hq]; destruct (String.eqb_spec q "2theta") as [Ht|Ht];
    simpl; try reflexivity;
    (destruct H as [Hl|[H1 H2]]; [|contradiction]);
    rewrite valid_inputs_len by exact Hl; reflexivity.
Qed.

(** Witness: arrays of lengths 2 and 1. *)
Lemma C5_save_output_rejects_witness :
  save_output nat (fun _ => "0") (mk_fs [] []) [1; 2]%nat [1]%nat "out" "Q" ".chi" None None =
  (Raise ValueError, mk_fs [] []).
Proof.
  apply C5_save_output_rejects. left. simpl. lia.
Defined.

End Claims3.

Module Claims4.
Import PyStr Output OutputRoundTrip Views.
Local Open Scope string_scope.

(** C9: with equal-length [tth] and [intensity] (and [err] of the same
    length when given), a call of [save_output] that gets past the input
    checks and opens its file writes a file from which
    [np.loadtxt(..., skiprows=6)] recovers [tth] as column 0, [intensity]
    as column 1 and [err] as column 2, value for value.  The number format
    is abstract: it needs only to be read back by [float(...)] and to print
    a non-empty token without whitespace or ['#']; the output name must not
    contain a newline, so that the header is the six lines written before
    [np.savetxt]. *)
Theorem C9_save_output_roundtrip
    (float : Type) (fmt_e : float -> string) (parse_float : string -> option float)
    (Hparse : forall x, parse_float (fmt_e x) = Some x)
    (Hne : forall x, fmt_e x <> "")
    (Hchars : forall x, str_forall (fun c => negb (is_ws c || is_hash c)) (fmt_e x) = true)
    (fs : filesystem) (tth intensity : list float) (output_name q_or_2theta ext : string)
    (err : option (list float)) (dir_path : option string) (file_path : string)
    (Hq : q_or_2theta = "Q" \/ q_or_2theta = "2theta")
    (Hlen : List.length tth = List.length intensity)
    (Herr : forall e, err = Some e -> List.length e = List.length tth)
    (Hvalid : _valid_inputs fs (List.length tth) (List.length intensity) output_name ext
                (match err with Some _ => true | None => false end) dir_path = Ret file_path)
    (Hopen : open_check fs file_path = Ret tt)
    (Hname : str_forall (fun c => negb (is_nl c)) output_name = true) :
  let r := save_output float fmt_e fs tth intensity output_name q_or_2theta ext err dir_path in
  fst r = Ret tt /\
  exists content data,
    read_file (snd r) file_path = Some content /\
    loadtxt float parse_float 6 content = Some data /\
    column float 0 data = tth /\ column float 1 data = intensity /\
    (forall e, err = Some e -> column float 2 data = e).
Proof.
  intros r; subst r. unfold save_output.
  assert (Hq' : (String.eqb q_or_2theta "Q" || String.eqb q_or_2theta "2theta") = true)
    by (destruct Hq as [-> | ->]; reflexivity).
  rewrite Hq'; simpl negb; cbv iota.
  rewrite Hvalid, Hopen.
  unfold c_rows. rewrite Hlen, Nat.eqb_refl; simpl negb; cbv iota.
  destruct err as [e|].
  - rewrite (Herr e eq_refl), Hlen, Nat.eqb_refl; simpl negb; cbv iota.
    split; [reflexivity|]. do 2 eexists.
    split; [apply read_write_file|].
    split; [apply loadtxt_output_text; auto using des_no_nl|].
    + apply Forall_forall. intros row Hrow. apply in_map_iff in Hrow as [[[a b] c] [<- _]].
      discriminate.
    + destruct (column_rows3 tth intensity e) as [E1 [E2 E3]]; [exact Hlen|exact (Herr e eq_refl)|].
      repeat split; auto. intros e' He'. injection He' as <-. exact E3.
  - split; [reflexivity|]. do 2 eexists.
    split; [apply read_write_file|].
    split; [apply loadtxt_output_text; auto using des_no_nl|].
    + apply Forall_forall. intros row Hrow. apply in_map_iff in Hrow as [[a b] [<- _]].
      discriminate.
    + destruct (column_rows2 tth intensity Hlen) as [E1 E2].
      repeat split; auto. intros e' He'. discriminate.
Qed.

Lemma C9_save_output_roundtrip_witness :
  let r := save_output nat py_str_nat (mk_fs [] []) [1; 2]%nat [10; 20]%nat "out" "Q" ".xye"
             (Some [7; 8]%nat) None in
  fst r = Ret tt /\
  exists content data,
    read_file (snd r) "out.xye" = Some content /\
    loadtxt nat nat_parse 6 content = Some data /\
    column nat 0 data = [1; 2]%nat /\ column nat 1 data = [10; 20]%nat /\
    (forall e, Some [7; 8]%nat = Some e -> column nat 2 data = e).
Proof.
  apply (C9_save_output_roundtrip nat py_str_nat nat_parse nat_parse_fmt py_str_nat_nonempty
           py_str_nat_fields).
  - left; reflexivity.
  - reflexivity.
  - intros e He; injection He as <-; reflexivity.
  - vm_compute; reflexivity.
  - vm_compute; reflexivity.
  - reflexivity.
Defined.

End Claims4.

Module DpcExtras.
Import Dpc DpcFacts DpcMore.

(** X1: [image_reduction] never raises on an out-of-range ROI: the ROI is
    clamped like a numpy slice, and the returned [yline] has one entry per
    row and [xline] one entry per column of the clamped region. *)
Theorem image_reduction_roi_clamped im x1 y1 x2 y2 bad (Hwf : well_formed im) :
  exists r, image_reduction im (Some (x1, y1, x2, y2)) bad = Ret r /\
    List.length (yline r) = (norm_slice_bound (nrows im) x2 - norm_slice_bound (nrows im) x1)%nat /\
    List.length (xline r) = (norm_slice_bound (ncols im) y2 - norm_slice_bound (ncols im) y1)%nat.
Proof.
  unfold image_reduction.
  set (p := match bad with Some bp => zero_bad_pixels im bp | None => (im, []) end).
  assert (Hp : well_formed (fst p) /\ nrows (fst p) = nrows im /\ ncols (fst p) = ncols im).
  { unfold p; destruct bad as [bp|]; simpl; [|auto].
    split; [apply zero_bad_pixels_wf; exact Hwf|apply zero_bad_pixels_shape]. }
  destruct p as [im1 out]; simpl in Hp. destruct Hp as [Hwf1 [Hr Hc]].
  eexists; split; [reflexivity|]. simpl.
  split.
  - unfold sum_axis1. rewrite length_map. simpl. rewrite length_map, py_slice_length.
    fold (nrows im1). rewrite Hr. reflexivity.
  - destruct (sum_axis0_wf _ (slice2_wf im1 x1 y1 x2 y2 Hwf1)) as [L _].
    rewrite L. simpl. rewrite Hc. reflexivity.
Qed.

Lemma image_reduction_roi_clamped_witness :
  exists r, image_reduction (mk_ndarray2 2 [[1; 2]; [3; 4]]%Z) (Some (0, -1, 5, 7)%Z) (Some [(0, 0)%Z]) = Ret r /\
    List.length (yline r) =
      (norm_slice_bound (nrows (mk_ndarray2 2 [[1; 2]; [3; 4]]%Z)) 5%Z -
       norm_slice_bound (nrows (mk_ndarray2 2 [[1; 2]; [3; 4]]%Z)) 0%Z)%nat /\
    List.length (xline r) =
      (norm_slice_bound (ncols (mk_ndarray2 2 [[1; 2]; [3; 4]]%Z)) 7%Z -
       norm_slice_bound (ncols (mk_ndarray2 2 [[1; 2]; [3; 4]]%Z)) (-1))%nat.
Proof.
  apply image_reduction_roi_clamped. unfold well_formed; simpl.
  repeat constructor.
Defined.

End DpcExtras.

Module SpectroscopyExtras.
Import Spectroscopy SpectroscopyFacts SpectroscopyMore Views.
Local Open Scope Q_scope.

(** X3: for a strictly decreasing [x_value_array], [integrate_ROI] gives
    the same result as for the reversed (increasing) array with the counts
    left as they are: it reverses [x] but not [counts]. *)
Theorem integrate_ROI_decreasing simps x counts x_min x_max
    (Hdec : Forall (fun d => d < 0) (np_diff x)) :
  integrate_ROI simps x counts x_min x_max = integrate_ROI simps (rev x) counts x_min x_max.
Proof.
  unfold integrate_ROI.
  assert (Hr : forallb (fun d => Qltb 0 d) (np_diff (rev x)) = true)
    by (apply forallb_pos, rev_decreasing, Hdec).
  rewrite Hr.
  destruct (forallb (fun d => Qltb 0 d) (np_diff x)) eqn:Hx; [|reflexivity].
  apply forallb_pos in Hx.
  destruct x as [|a [|b t]]; simpl; try reflexivity.
  exfalso. simpl in Hx, Hdec. inversion Hx; inversion Hdec; subst.
  apply (Qlt_irrefl 0). eapply Qlt_trans; eauto.
Qed.



Lemma integrate_ROI_decreasing_witness :
  integrate_ROI simps_sum [4; 3; 2; 1; 0] [1; 2; 3; 4; 5] [1] [3] =
  integrate_ROI simps_sum (rev [4; 3; 2; 1; 0]) [1; 2; 3; 4; 5] [1] [3].
Proof.
  apply integrate_ROI_decreasing. repeat constructor.
Defined.


End SpectroscopyExtras.

Module PeakFitExtras.
Import PeakFit PeakFitFacts.
Local Open Scope Q_scope.

(** X8: when [align_and_scale] returns [(out_e, out_c)], [out_c] is the
    list of count arrays of [zip(energy_list, counts_list)], [out_e] holds
    one array per pair with as many entries as its energy array, and one
    line is printed per pair. *)
Theorem align_and_scale_shapes pk E C oe oc printed
  (H : align_and_scale pk E C = (Ret (oe, oc), printed)) :
  oc = map snd (combine E C) /\ List.length oe = List.length oc /\
  List.length printed = List.length oc /\
  Forall2 (fun a e => List.length a = List.length e) oe (map fst (combine E C)).
Proof.
  destruct (align_loop_shapes _ _ _ _ _ _ H) as [H1 [H2 H3]].
  apply Forall2_length in H3 as L.
  rewrite length_map in L. rewrite H1, length_map. repeat split; auto.
Qed.

(** Witness: a peak finder returning the first energy, the first count and
    the width [2]. *)
Lemma align_and_scale_shapes_witness :
  exists oe oc printed,
    align_and_scale (fun e c => Ret (hd 0 e, hd 0 c, 2)) [[1; 2]; [3; 4]] [[5; 6]; [7; 8]] =
      (Ret (oe, oc), printed) /\
    oc = map snd (combine [[1; 2]; [3; 4]] [[5; 6]; [7; 8]]) /\ List.length oe = List.length oc /\
    List.length printed = List.length oc /\
    Forall2 (fun a e => List.length a = List.length e) oe (map fst (combine [[1; 2]; [3; 4]] [[5; 6]; [7; 8]])).
Proof.
  do 3 eexists. split; [reflexivity|].
  apply (align_and_scale_shapes (fun e c => Ret (hd 0 e, hd 0 c, 2)) [[1; 2]; [3; 4]] [[5; 6]; [7; 8]]).
  reflexivity.
Defined.

End PeakFitExtras.

Module OutputExtras.
Import PyStr Output Gsas OutputFacts OutputRoundTrip OutputMore Views.
Local Open Scope string_scope.

(** X10: [save_output] never creates or removes a directory, and the only
    file whose contents it can change is the path [_valid_inputs]
    computes; this holds whether it returns or raises. *)
Theorem save_output_frame float fmt_e fs tth intensity output_name q_or_2theta ext err dir_path :
  let r := save_output float fmt_e fs tth intensity output_name q_or_2theta ext err dir_path in
  fs_dirs (snd r) = fs_dirs fs /\
  forall p, read_file (snd r) p = read_file fs p \/
            _valid_inputs fs (List.length tth) (List.length intensity) output_name ext
              (match err with Some _ => true | None => false end) dir_path = Ret p.
Proof.
  intros r; subst r. unfold save_output.
  destruct (negb _); [split; [reflexivity|left; reflexivity]|].
  destruct (_valid_inputs _ _ _ _ _ _ _) as [fp|e]; [|split; [reflexivity|left; reflexivity]].
  destruct (open_check fs fp); [|split; [reflexivity|left; reflexivity]].
  destruct (c_rows _ _ _ _) as [rows|e]; simpl;
    (split; [reflexivity|intros p; match goal with |- context [write_file fs fp ?c] =>
       destruct (read_write_cases fs fp c p) as [E| ->]; [left|right]; auto end]).
Qed.

(** X11: when [err] has a length other than that of [tth] (and the other
    checks pass), [save_output] raises [ValueError] from [np.c_] after the
    header was written: the file is left behind, and [np.loadtxt] with
    [skiprows=6] reads no data rows from it. *)
Theorem save_output_err_mismatch float fmt_e parse_float fs tth intensity output_name
    q_or_2theta ext e dir_path file_path
    (Hq : q_or_2theta = "Q" \/ q_or_2theta = "2theta")
    (Hvalid : _valid_inputs fs (List.length tth) (List.length intensity) output_name ext
                true dir_path = Ret file_path)
    (Hopen : open_check fs file_path = Ret tt)
    (He : List.length e <> List.length tth)
    (Hname : str_forall (fun c => negb (is_nl c)) output_name = true) :
  let r := save_output float fmt_e fs tth intensity output_name q_or_2theta ext (Some e) dir_path in
  fst r = Raise ValueError /\
  exists content, read_file (snd r) file_path = Some content /\
                  loadtxt float parse_float 6 content = Some [].
Proof.
  intros r; subst r. unfold save_output.
  assert (Hq' : (String.eqb q_or_2theta "Q" || String.eqb q_or_2theta "2theta") = true)
    by (destruct Hq as [-> | ->]; reflexivity).
  rewrite Hq'; simpl negb; cbv iota.
  rewrite Hvalid, Hopen.
  pose proof (valid_inputs_ret _ _ _ _ _ _ _ _ Hvalid) as Hlen.
  unfold c_rows. rewrite Hlen, Nat.eqb_refl; simpl negb; cbv iota.
  rewrite <- Hlen. destruct (Nat.eqb_spec (List.length e) (List.length tth)) as [E|_]; [contradiction|].
  simpl. split; [reflexivity|]. eexists; split; [apply read_write_file|].
  unfold loadtxt. rewrite output_text_lines by (exact Hname || apply des_no_nl).
  reflexivity.
Qed.

(** X12: [save_gsas] never creates or removes a directory, leaves the file
    system unchanged whenever it raises, and the only file it can change is
    the path [_valid_inputs] computes. *)
Theorem save_gsas_frame fmt_num fmt_int floor_log10_ratio fs tth intensity output_name ext mode err dir_path :
  let r := save_gsas fmt_num fmt_int floor_log10_ratio fs tth intensity output_name ext mode err dir_path in
  fs_dirs (snd r) = fs_dirs fs /\
  (forall e, fst r = Raise e -> snd r = fs) /\
  forall p, read_file (snd r) p = read_file fs p \/
            _valid_inputs fs (List.length tth) (List.length intensity) output_name ext
              (match err with Some _ => true | None => false end) dir_path = Ret p.
Proof.
  intros r; subst r. unfold save_gsas.
  destruct (_valid_inputs _ _ _ _ _ _ _) as [fp|e] eqn:V; [|repeat split; auto].
  destruct (np_max intensity) as [m|e]; [|repeat split; auto].
  destruct (gsas_scale floor_log10_ratio m) as [scale|e]; [|repeat split; auto].
  destruct tth as [|t0 tr]; [repeat split; auto|].
  match goal with |- context [mode_lines ?a ?b ?c ?d ?e ?f ?g ?h ?i] =>
    destruct (mode_lines a b c d e f g h i) as [rest|ex] end; [|repeat split; auto].
  destruct (open_check fs fp); [|repeat split; auto].
  simpl. split; [reflexivity|]. split; [discriminate|].
  intros p. match goal with |- context [write_file fs fp ?c] =>
    destruct (read_write_cases fs fp c p) as [E| ->]; [left|right]; auto end.
Qed.

(** X13: when [save_gsas] succeeds (with [err], if given, as long as
    [intensity]), the file holds a title line of exactly 80 characters,
    then the padded BANK line announcing [n_chan] channels and [n_rec]
    records, then exactly [n_rec >= 1] record lines, each line ended by a
    CRLF. *)
Theorem save_gsas_layout fmt_num fmt_int floor_log10_ratio fs tth intensity output_name ext mode err dir_path fs'
    (Herr : forall e, err = Some e -> List.length e = List.length intensity)
    (H : save_gsas fmt_num fmt_int floor_log10_ratio fs tth intensity output_name ext mode err dir_path = (Ret tt, fs')) :
  exists file_path title kind n_rec tth0_cdg dtth_cdg recs,
    _valid_inputs fs (List.length tth) (List.length intensity) output_name ext
      (match err with Some _ => true | None => false end) dir_path = Ret file_path /\
    read_file fs' file_path =
      Some (String.concat crlf
              (title :: ljust80 (bank_line fmt_num fmt_int kind (List.length intensity) n_rec
                                   tth0_cdg dtth_cdg) :: recs) ++ crlf) /\
    String.length title = 80%nat /\ List.length recs = n_rec /\ (1 <= n_rec)%nat.
Proof.
  unfold save_gsas in H.
  destruct (_valid_inputs _ _ _ _ _ _ _) as [fp|e] eqn:V; [|discriminate].
  pose proof (valid_inputs_ret _ _ _ _ _ _ _ _ V) as Ht.
  destruct (np_max intensity) as [m|e] eqn:M; [|discriminate].
  assert (Hne : intensity <> []) by (intros ->; discriminate).
  destruct (gsas_scale floor_log10_ratio m) as [scale|e]; [|discriminate].
  destruct tth as [|t0 tr]; [discriminate|].
  match type of H with context [mode_lines ?a ?b ?c ?d ?e ?f ?g ?h ?i] =>
    destruct (mode_lines a b c d e f g h i) as [rest|ex] eqn:ML end; [|discriminate].
  destruct (open_check fs fp); [|discriminate].
  injection H as <-.
  apply mode_lines_shape in ML as [kind [n_rec [recs0 [-> [Hl Hn]]]]]; auto.
  2:{ destruct err as [e|]; [right; apply Herr; reflexivity|left; reflexivity]. }
  assert (Hr0 : recs0 <> []) by (intros ->; simpl in Hl; lia).
  match goal with |- context [ljust80 ?t] =>
    match t with bank_line _ _ _ _ _ _ _ => fail | _ => set (title := t) end end.
  destruct (set_last_cons2 ljust80 (ljust80 title)
              (ljust80 (bank_line fmt_num fmt_int kind (List.length intensity) n_rec
                          (t0 * 100) ((last (t0 :: tr) t0 - t0) / inject_Z (Z.of_nat (List.length (t0 :: tr)) - 1) * 100)))
              recs0 Hr0) as [recs [Es Hls]].
  rewrite Es.
  exists fp, (ljust80 title), kind, n_rec.
  do 3 eexists. split; [reflexivity|]. split; [apply read_write_file|].
  split; [|split; [lia|exact Hn]].
  apply ljust80_length. subst title.
  exact (title_le ("Angular Profile" ++ ": " ++ output_name ++ " scale=" ++ fmt_num "%g" scale)).
Qed.

Local Open Scope Q_scope.

(** X15: for an [intensity] array of finite floats, when the array is
    empty ([np.max] raises) or its maximum is negative ([log10] gives
    [nan] and [int(nan)] raises), [save_gsas] raises [ValueError] and
    writes nothing, whatever the printf conversions and numpy's float
    logarithm produce. *)
Theorem save_gsas_bad_intensity fmt_num fmt_int floor_log10_ratio fs tth intensity output_name ext mode err dir_path
    (Hbad : intensity = [] \/ exists m, np_max intensity = Ret m /\ m < 0) :
  save_gsas fmt_num fmt_int floor_log10_ratio fs tth intensity output_name ext mode err dir_path = (Raise ValueError, fs).
Proof.
  unfold save_gsas.
  destruct (_valid_inputs _ _ _ _ _ _ _) as [fp|e] eqn:V.
  2:{ apply valid_inputs_raise in V. subst. reflexivity. }
  destruct Hbad as [->|[m [Hm Hneg]]]; [reflexivity|].
  rewrite Hm. unfold gsas_scale.
  assert (Qeq_bool m 0 = false) by (apply not_true_iff_false; intros C; apply Qeq_bool_iff in C; lra).
  assert (Qle_bool 0 m = false) by (apply not_true_iff_false; intros C; apply Qle_bool_iff in C; lra).
  rewrite H, H0. reflexivity.
Qed.

Local Close Scope Q_scope.

(** Witness: [err] of length 1 for two points, written to [out.chi]. *)
Lemma save_output_err_mismatch_witness :
  let r := save_output nat py_str_nat (mk_fs [] []) [1; 2]%nat [10; 20]%nat "out" "Q" ".chi"
             (Some [7]%nat) None in
  fst r = Raise ValueError /\
  exists content, read_file (snd r) "out.chi" = Some content /\
                  loadtxt nat nat_parse 6 content = Some [].
Proof.
  apply (save_output_err_mismatch nat py_str_nat nat_parse (mk_fs [] []) [1; 2]%nat [10; 20]%nat
           "out" "Q" ".chi" [7]%nat None "out.chi").
  - left; reflexivity.
  - reflexivity.
  - vm_compute; reflexivity.
  - simpl; lia.
  - reflexivity.
Defined.

(** Witness: two points in the default ['std'] mode with constant
    formats. *)
Lemma save_gsas_layout_witness :
  exists fs',
    save_gsas (fun _ _ => "0") (fun _ _ => "1") (fun _ => 0%Z) (mk_fs [] []) [1; 2]%Q [3; 4]%Q "out" ".gsas" None None
      None = (Ret tt, fs') /\
    exists file_path title kind n_rec tth0_cdg dtth_cdg recs,
      _valid_inputs (mk_fs [] []) 2 2 "out" ".gsas" false None = Ret file_path /\
      read_file fs' file_path =
        Some (String.concat crlf
                (title :: ljust80 (bank_line (fun _ _ => "0") (fun _ _ => "1") kind 2 n_rec
                                     tth0_cdg dtth_cdg) :: recs) ++ crlf) /\
      String.length title = 80%nat /\ List.length recs = n_rec /\ (1 <= n_rec)%nat.
Proof.
  eexists. split; [vm_compute; reflexivity|].
  eapply (save_gsas_layout (fun _ _ => "0") (fun _ _ => "1") (fun _ => 0%Z) (mk_fs [] []) [1; 2]%Q [3; 4]%Q
            "out" ".gsas" None None None).
  - intros e H; discriminate H.
  - reflexivity.
Defined.

Lemma save_gsas_bad_intensity_witness :
  save_gsas (fun _ _ => "0") (fun _ _ => "1") (fun _ => 0%Z) (mk_fs [] []) [1; 2]%Q [-3; -4]%Q "out" ".gsas" None
    None None = (Raise ValueError, mk_fs [] []).
Proof.
  apply save_gsas_bad_intensity. right. exists (-3)%Q. split; [reflexivity|].
  unfold Qlt; simpl; lia.
Defined.

End OutputExtras.
